(** * intelux/serial: the PowerLine Modem command layer and its HTTP facade

    A shallow embedding of [old/plm/plm.go] (the command methods of the
    PowerLine Modem) and of the web service of package [insteon], with the
    properties their specification states about them.

    The transport is modelled as a scripted world: the outcomes of the
    successive writes, the frames the modem sends, and a log of every
    effect a command performs (token creation, request written, response
    read, token closed). A command is a state-passing function on that
    world. *)

From Stdlib Require Import ZArith NArith QArith Lia.
From Stdlib Require Import Init.Byte Strings.Byte Strings.Ascii Strings.String.
From stdpp Require Import base option list strings sorting.

Local Open Scope string_scope.

(** ** Go's [error] values *)

Inductive error : Type :=
| ErrCommandFailure
| io_EOF
| io_ErrClosedPipe
| context_DeadlineExceeded
| context_Canceled
| errors_New (msg : string).

#[global] Instance error_eq_dec : EqDecision error.
Proof. solve_decision. Defined.

(** [err.Error()] *)
Definition Error (e : error) : string :=
  match e with
  | ErrCommandFailure => "command failure"
  | io_EOF => "EOF"
  | io_ErrClosedPipe => "io: read/write on closed pipe"
  | context_DeadlineExceeded => "context deadline exceeded"
  | context_Canceled => "context canceled"
  | errors_New msg => msg
  end.

(** A Go [(value, error)] result: exactly one of the two is meaningful. *)
Inductive result (A : Type) : Type :=
| Ok (a : A)
| Err (e : error).
Arguments Ok {A} a.
Arguments Err {A} e.

Module plm.

(** ** Value types *)

#[global] Instance byte_eq_dec : EqDecision byte.
Proof. solve_decision. Defined.

(** [type Identity [3]byte] *)
Record Identity : Type := mkIdentity { id0 : byte; id1 : byte; id2 : byte }.

#[global] Instance Identity_eq_dec : EqDecision Identity.
Proof. solve_decision. Defined.

(** [type CommandBytes [2]byte]; [cb[0]] is [cmd1] and [cb[1]] is [cmd2]. *)
Record CommandBytes : Type := mkCommandBytes { cmd1 : byte; cmd2 : byte }.

#[global] Instance CommandBytes_eq_dec : EqDecision CommandBytes.
Proof. solve_decision. Defined.

(** [type UserData [14]byte], an array updated by index. *)
Definition UserData : Type := list byte.

(** [UserData{}], the zero value. *)
Definition UserData_zero : UserData := replicate 14 x00.

Definition MessageFlags : Type := byte.

(** Modelled from the spec: the constant [MessageFlagExtended] is declared
    outside the files at hand. Section 3 names [Extended] as the flag bit
    that distinguishes extended from standard messages; it is bit 4 of the
    Insteon message-flag byte. *)
Definition MessageFlagExtended : MessageFlags := x10.

Definition has_Extended (f : MessageFlags) : bool :=
  N.testbit (Byte.to_N f) 4.

(** Modelled from the spec: [CommandBytesBeep] is declared outside the
    files at hand; scenario 2 of section 8 shows the two command bytes of a
    beep on the wire, [30 00]. *)
Definition CommandBytesBeep : CommandBytes := mkCommandBytes x30 x00.

Record AllLinkRecord : Type := mkAllLinkRecord {
  alr_Flags : byte;
  alr_Group : byte;
  alr_ID : Identity;
  alr_LinkData : byte * byte * byte
}.

#[global] Instance AllLinkRecord_eq_dec : EqDecision AllLinkRecord.
Proof. solve_decision. Defined.

Definition AllLinkRecordList : Type := list AllLinkRecord.

Record IMInfo : Type := mkIMInfo {
  im_ID : Identity;
  im_Category : byte;
  im_SubCategory : byte;
  im_FirmwareVersion : byte
}.

(** [float64] levels are modelled as exact rationals. *)
Definition float64 : Type := Q.

(** [time.Duration], a count of nanoseconds. *)
Definition Duration : Type := Z.

(** Modelled from the spec: [byteToOnLevel] is declared outside the files
    at hand. Section 3: the on level is linear in [0,255], a level being a
    number in [0,1]. *)
Definition byteToOnLevel (b : byte) : float64 :=
  Z.of_N (Byte.to_N b) # 255.

(** Modelled from the spec: the [Less] method of [AllLinkRecordList] is
    declared outside the files at hand. Section 3: records are ordered by
    [(group, id)] ascending, identities by their big-endian numeric value. *)
Definition Identity_value (i : Identity) : N :=
  (Byte.to_N (id0 i) * 65536 + Byte.to_N (id1 i) * 256 + Byte.to_N (id2 i))%N.

Definition AllLinkRecord_Less (a b : AllLinkRecord) : bool :=
  if (Byte.to_N (alr_Group a) <? Byte.to_N (alr_Group b))%N then true
  else if (Byte.to_N (alr_Group b) <? Byte.to_N (alr_Group a))%N then false
  else (Identity_value (alr_ID a) <? Identity_value (alr_ID b))%N.

(** The order a sorted list is in: no element is [Less] than one before it. *)
Definition AllLinkRecord_le (a b : AllLinkRecord) : Prop :=
  AllLinkRecord_Less b a = false.

#[global] Instance AllLinkRecord_le_dec : RelDecision AllLinkRecord_le.
Proof. intros a b. unfold AllLinkRecord_le. apply _. Defined.

(** [sort.Sort(records)]. Go's sort is not stable; it is embedded as a merge
    sort, and the properties below only use that the outcome is in order
    and holds the same records. *)
Definition sort_Sort (records : AllLinkRecordList) : AllLinkRecordList :=
  merge_sort AllLinkRecord_le records.

(** ** Requests and responses *)

Record SendStandardOrExtendedMessageRequest : Type := mkSendRequest {
  req_Target : Identity;
  req_HopsLeft : N;
  req_MaxHops : N;
  req_Flags : MessageFlags;
  req_CommandBytes : CommandBytes;
  req_UserData : UserData
}.

#[global] Instance SendStandardOrExtendedMessageRequest_eq_dec :
  EqDecision SendStandardOrExtendedMessageRequest.
Proof. solve_decision. Defined.

Inductive Request : Type :=
| GetIMInfoRequest
| SendMessageRequest (r : SendStandardOrExtendedMessageRequest)
| GetFirstAllLinkRecordRequest
| GetNextAllLinkRecordRequest.

#[global] Instance Request_eq_dec : EqDecision Request.
Proof. solve_decision. Defined.

Record StandardMessageReceivedResponse : Type := mkStandardReceived {
  smr_From : Identity;
  smr_To : Identity;
  smr_Flags : MessageFlags;
  smr_CommandBytes : CommandBytes
}.

Record ExtendedMessageReceivedResponse : Type := mkExtendedReceived {
  emr_From : Identity;
  emr_To : Identity;
  emr_Flags : MessageFlags;
  emr_CommandBytes : CommandBytes;
  emr_UserData : UserData
}.

(** The kinds of response a caller can ask the decoder for; each stands for
    the Go struct whose address is passed to [UnmarshalResponse]. *)
Inductive ResponseKind : Type :=
| KStandardMessageReceived
| KExtendedMessageReceived
| KAllLinkRecord
| KGetIMInfo
| KSendStandardOrExtendedMessage
| KGetFirstAllLinkRecord
| KGetNextAllLinkRecord.

#[global] Instance ResponseKind_eq_dec : EqDecision ResponseKind.
Proof. solve_decision. Defined.

(** The fields of the struct of each kind. *)
Definition response (k : ResponseKind) : Type :=
  match k with
  | KStandardMessageReceived => StandardMessageReceivedResponse
  | KExtendedMessageReceived => ExtendedMessageReceivedResponse
  | KAllLinkRecord => AllLinkRecord
  | KGetIMInfo => IMInfo
  | KSendStandardOrExtendedMessage => SendStandardOrExtendedMessageRequest
  | KGetFirstAllLinkRecord => unit
  | KGetNextAllLinkRecord => unit
  end.

(** A frame as it arrives from the modem. *)
Inductive Frame : Type :=
| StandardMessageReceived (r : StandardMessageReceivedResponse)
| ExtendedMessageReceived (r : ExtendedMessageReceivedResponse)
| AllLinkRecordFrame (r : AllLinkRecord)
| GetIMInfoFrame (r : IMInfo)
| SendMessageFrame (r : SendStandardOrExtendedMessageRequest)
| GetFirstAllLinkRecordFrame
| GetNextAllLinkRecordFrame.

Definition Frame_kind (f : Frame) : ResponseKind :=
  match f with
  | StandardMessageReceived _ => KStandardMessageReceived
  | ExtendedMessageReceived _ => KExtendedMessageReceived
  | AllLinkRecordFrame _ => KAllLinkRecord
  | GetIMInfoFrame _ => KGetIMInfo
  | SendMessageFrame _ => KSendStandardOrExtendedMessage
  | GetFirstAllLinkRecordFrame => KGetFirstAllLinkRecord
  | GetNextAllLinkRecordFrame => KGetNextAllLinkRecord
  end.

(** The frame seen as a response of kind [k], when it is one. *)
Definition Frame_as (k : ResponseKind) (f : Frame) : option (response k) :=
  match k return option (response k) with
  | KStandardMessageReceived =>
      match f with StandardMessageReceived r => Some r | _ => None end
  | KExtendedMessageReceived =>
      match f with ExtendedMessageReceived r => Some r | _ => None end
  | KAllLinkRecord =>
      match f with AllLinkRecordFrame r => Some r | _ => None end
  | KGetIMInfo =>
      match f with GetIMInfoFrame r => Some r | _ => None end
  | KSendStandardOrExtendedMessage =>
      match f with SendMessageFrame r => Some r | _ => None end
  | KGetFirstAllLinkRecord =>
      match f with GetFirstAllLinkRecordFrame => Some tt | _ => None end
  | KGetNextAllLinkRecord =>
      match f with GetNextAllLinkRecordFrame => Some tt | _ => None end
  end.

(** What the read side of the transport delivers next: a frame ending in an
    ack (or with no ack byte), a frame of some kind ending in a nak, or a
    failure of the channel. *)
Inductive incoming : Type :=
| InFrame (f : Frame)
| InNak (k : ResponseKind)
| InError (e : error).

(** ** The world a command runs in *)

Definition token : Type := nat.

Inductive event : Type :=
| EvCreate (t : token)
| EvWrite (t : token) (req : Request)
| EvRead (t : token) (k : ResponseKind)
| EvClose (t : token).

#[global] Instance event_eq_dec : EqDecision event.
Proof. solve_decision. Defined.

Record world : Type := mkWorld {
  wr_script : list (option error);
  rd_script : list incoming;
  created : nat;
  log : list event
}.

Definition M (A : Type) : Type := world -> A * world.

Definition ret {A} (a : A) : M A := fun w => (a, w).

Definition bind {A B} (c : M A) (k : A -> M B) : M B :=
  fun w => let (a, w') := c w in k a w'.

Notation "'let!' x ':=' c 'in' k" := (bind c (fun x => k))
  (at level 10, x name, c at level 100, k at level 200, only parsing).

Definition emit (e : event) : M unit :=
  fun w => (tt, mkWorld (wr_script w) (rd_script w) (created w) (log w ++ [e])%list).

(** [defer cleanup] around the rest of a function body. *)
Definition defer {A} (cleanup : M unit) (body : M A) : M A :=
  let! a := body in let! _ := cleanup in ret a.

(** [createToken]: a fresh token, handed to the dispatcher. *)
Definition createToken : M token :=
  fun w => (created w,
            mkWorld (wr_script w) (rd_script w) (S (created w))
                    (log w ++ [EvCreate (created w)])%list).

(** The [Close] method of [requestToken]. *)
Definition Close (t : token) : M unit := emit (EvClose t).

(** A context as [Acquire]'s [select] observes it: [None] when the token is
    signalled ready first, [Some e] when [ctx.Done()] fires first and
    [ctx.Err()] is [e]. *)
Definition Context : Type := option error.

Definition Acquire (ctx : Context) : M (result token) :=
  let! token := createToken in
  match ctx with
  | None => ret (Ok token)
  | Some e => let! _ := Close token in ret (Err e)
  end.

(** [MarshalRequest(device, request)]: one write to the transport, whose
    outcome is the next one of the script (a write succeeds once the script
    is used up). *)
Definition MarshalRequest (device : token) (request : Request) : M (option error) :=
  fun w =>
    (match wr_script w with [] => None | o :: _ => o end,
     mkWorld (tail (wr_script w)) (rd_script w) (created w)
             (log w ++ [EvWrite device request])%list).

(** Modelled from the spec: the decoder behind [UnmarshalResponse] is
    declared outside the files at hand. Section 4.1: the reader is given the
    kind it expects; a frame of that kind is consumed and returned, a frame
    of another kind is discarded and reading goes on; a frame ending in a nak
    yields [ErrCommandFailure] once consumed. A failure of the channel, or
    its end, is returned as it is. *)
Fixpoint read_one (k : ResponseKind) (l : list incoming)
  : result (response k) * list incoming :=
  match l with
  | [] => (Err io_EOF, [])
  | InError e :: l' => (Err e, l')
  | InNak k' :: l' =>
      if decide (k' = k) then (Err ErrCommandFailure, l') else read_one k l'
  | InFrame f :: l' =>
      match Frame_as k f with
      | Some r => (Ok r, l')
      | None => read_one k l'
      end
  end.

Definition UnmarshalResponse (device : token) (k : ResponseKind)
  : M (result (response k)) :=
  fun w =>
    let (r, l') := read_one k (rd_script w) in
    (r, mkWorld (wr_script w) l' (created w) (log w ++ [EvRead device k])%list).

(** The echo of the request that a [SendMsgResponse] frame carries. *)
Definition SendStandardOrExtendedMessageResponse : Type :=
  SendStandardOrExtendedMessageRequest.

(** ** The command methods of [PowerLineModem] *)

Section Commands.

(** Constants, types and conversions declared outside the files at hand;
    the commands are read for any value of them. *)
Variable CommandBytesStatusRequest : CommandBytes.
Variable CommandBytesGetDeviceInfo : CommandBytes.
Variable CommandBytesSetDeviceInfo : CommandBytes.
Variable DeviceInfo : Type.
Variable deviceInfoFromUserData : UserData -> DeviceInfo.
Variable LightState : Type.
Variable commandBytes : LightState -> CommandBytes.
Variable rampRateToByte : Duration -> byte.
Variable onLevelToByte : float64 -> byte.
Variable ledBrightnessToByte : float64 -> byte.

Definition GetInfo (ctx : Context) : M (result IMInfo) :=
  let! r := Acquire ctx in
  match r with
  | Err err => ret (Err err)
  | Ok device =>
      defer (Close device)
        (let! err := MarshalRequest device GetIMInfoRequest in
         match err with
         | Some err => ret (Err err)
         | None =>
             let! r := UnmarshalResponse device KGetIMInfo in
             match r with
             | Err err => ret (Err err)
             | Ok response => ret (Ok response)
             end
         end)
  end.

Definition sendStandardMessage (device : token) (identity : Identity)
    (commandBytes : CommandBytes)
  : M (result SendStandardOrExtendedMessageResponse) :=
  let! err := MarshalRequest device (SendMessageRequest {|
      req_Target := identity;
      req_HopsLeft := 2;
      req_MaxHops := 3;
      req_Flags := x00;
      req_CommandBytes := commandBytes;
      req_UserData := UserData_zero |}) in
  match err with
  | Some err => ret (Err err)
  | None =>
      let! r := UnmarshalResponse device KSendStandardOrExtendedMessage in
      match r with
      | Err err => ret (Err err)
      | Ok response => ret (Ok response)
      end
  end.

Definition sendExtendedMessage (device : token) (identity : Identity)
    (commandBytes : CommandBytes) (userData : UserData)
  : M (result SendStandardOrExtendedMessageResponse) :=
  let! err := MarshalRequest device (SendMessageRequest {|
      req_Target := identity;
      req_HopsLeft := 2;
      req_MaxHops := 3;
      req_Flags := MessageFlagExtended;
      req_CommandBytes := commandBytes;
      req_UserData := userData |}) in
  match err with
  | Some err => ret (Err err)
  | None =>
      let! r := UnmarshalResponse device KSendStandardOrExtendedMessage in
      match r with
      | Err err => ret (Err err)
      | Ok response => ret (Ok response)
      end
  end.

(** [_, err = m.sendX(...); return err] *)
Definition discard_value {A} (r : result A) : option error :=
  match r with Ok _ => None | Err err => Some err end.

Definition SetLightState (ctx : Context) (identity : Identity)
    (state : LightState) : M (option error) :=
  let! r := Acquire ctx in
  match r with
  | Err err => ret (Some err)
  | Ok device =>
      defer (Close device)
        (let! r := sendStandardMessage device identity (commandBytes state) in
         ret (discard_value r))
  end.

Definition Beep (ctx : Context) (identity : Identity) : M (option error) :=
  let! r := Acquire ctx in
  match r with
  | Err err => ret (Some err)
  | Ok device =>
      defer (Close device)
        (let! r := sendStandardMessage device identity CommandBytesBeep in
         ret (discard_value r))
  end.

(** The result of [sendExtendedMessage] is assigned to [err] and to the
    blank identifier; the next statement that looks at [err] is the test
    after it has been assigned the outcome of reading the ack. *)
Definition GetDeviceInfo (ctx : Context) (identity : Identity)
  : M (result DeviceInfo) :=
  let! r := Acquire ctx in
  match r with
  | Err err => ret (Err err)
  | Ok device =>
      defer (Close device)
        (let! _ := sendExtendedMessage device identity
                     CommandBytesGetDeviceInfo UserData_zero in
         let! r := UnmarshalResponse device KStandardMessageReceived in
         match r with
         | Err err => ret (Err err)
         | Ok ack =>
             let! r := UnmarshalResponse device KExtendedMessageReceived in
             match r with
             | Err err => ret (Err err)
             | Ok response =>
                 ret (Ok (deviceInfoFromUserData (emr_UserData response)))
             end
         end)
  end.

Definition SetDeviceRampRate (ctx : Context) (identity : Identity)
    (rampRate : Duration) : M (option error) :=
  let! r := Acquire ctx in
  match r with
  | Err err => ret (Some err)
  | Ok device =>
      defer (Close device)
        (let userData := UserData_zero in
         let userData := <[1%nat := x05]> userData in
         let userData := <[2%nat := rampRateToByte rampRate]> userData in
         let! r := sendExtendedMessage device identity
                     CommandBytesSetDeviceInfo userData in
         ret (discard_value r))
  end.

Definition SetDeviceOnLevel (ctx : Context) (identity : Identity)
    (level : float64) : M (option error) :=
  let! r := Acquire ctx in
  match r with
  | Err err => ret (Some err)
  | Ok device =>
      defer (Close device)
        (let userData := UserData_zero in
         let userData := <[1%nat := x06]> userData in
         let userData := <[2%nat := onLevelToByte level]> userData in
         let! r := sendExtendedMessage device identity
                     CommandBytesSetDeviceInfo userData in
         ret (discard_value r))
  end.

Definition SetDeviceLEDBrightness (ctx : Context) (identity : Identity)
    (level : float64) : M (option error) :=
  let! r := Acquire ctx in
  match r with
  | Err err => ret (Some err)
  | Ok device =>
      defer (Close device)
        (let userData := UserData_zero in
         let userData := <[1%nat := x07]> userData in
         let userData := <[2%nat := ledBrightnessToByte level]> userData in
         let! r := sendExtendedMessage device identity
                     CommandBytesSetDeviceInfo userData in
         ret (discard_value r))
  end.

Definition SetDeviceX10Address (ctx : Context) (identity : Identity)
    (x10HouseCode x10Unit : byte) : M (option error) :=
  let! r := Acquire ctx in
  match r with
  | Err err => ret (Some err)
  | Ok device =>
      defer (Close device)
        (let userData := UserData_zero in
         let userData := <[1%nat := x04]> userData in
         let userData := <[2%nat := x10HouseCode]> userData in
         let userData := <[3%nat := x10Unit]> userData in
         let! r := sendExtendedMessage device identity
                     CommandBytesSetDeviceInfo userData in
         ret (discard_value r))
  end.

(** The [for] loop of [GetAllLinkRecords]. [Some (Ok records)] is the
    [break]; [None] is the bound on the number of rounds being reached
    (the bound [GetAllLinkRecords] gives is never reached, see
    [GetAllLinkRecords_loop_bound]). *)
Fixpoint GetAllLinkRecords_loop (bound : nat) (device : token)
    (records : AllLinkRecordList) : M (option (result AllLinkRecordList)) :=
  match bound with
  | O => ret None
  | S bound =>
      let! r := UnmarshalResponse device KAllLinkRecord in
      match r with
      | Err err => ret (Some (Err err))
      | Ok allLinkRecordResponse =>
          let records := (records ++ [allLinkRecordResponse])%list in
          let! err := MarshalRequest device GetNextAllLinkRecordRequest in
          match err with
          | Some err => ret (Some (Err err))
          | None =>
              let! r := UnmarshalResponse device KGetNextAllLinkRecord in
              match r with
              | Err err =>
                  if decide (err = ErrCommandFailure)
                  then ret (Some (Ok records))
                  else ret (Some (Err err))
              | Ok nextResponse =>
                  GetAllLinkRecords_loop bound device records
              end
          end
      end
  end.

(** Every round of the loop consumes an incoming frame, so one round more
    than there are frames is a bound that is never reached. *)
Definition rounds_bound : M nat :=
  fun w => (S (length (rd_script w)), w).

Definition GetAllLinkRecords (ctx : Context)
  : M (option (result AllLinkRecordList)) :=
  let! r := Acquire ctx in
  match r with
  | Err err => ret (Some (Err err))
  | Ok device =>
      defer (Close device)
        (let records : AllLinkRecordList := [] in
         let! err := MarshalRequest device GetFirstAllLinkRecordRequest in
         match err with
         | Some err => ret (Some (Err err))
         | None =>
             let! r := UnmarshalResponse device KGetFirstAllLinkRecord in
             match r with
             | Err err =>
                 if decide (err = ErrCommandFailure)
                 then ret (Some (Ok records))
                 else ret (Some (Err err))
             | Ok response =>
                 let! bound := rounds_bound in
                 let! r := GetAllLinkRecords_loop bound device records in
                 match r with
                 | Some (Ok records) => ret (Some (Ok (sort_Sort records)))
                 | other => ret other
                 end
             end
         end)
  end.

Definition GetDeviceStatus (ctx : Context) (identity : Identity)
  : M (result float64) :=
  let! r := Acquire ctx in
  match r with
  | Err err => ret (Err err)
  | Ok device =>
      defer (Close device)
        (let! r := sendStandardMessage device identity
                     CommandBytesStatusRequest in
         match r with
         | Err err => ret (Err err)
         | Ok _ =>
             let! r := UnmarshalResponse device KStandardMessageReceived in
             match r with
             | Err err => ret (Err err)
             | Ok ack => ret (Ok (byteToOnLevel (cmd2 (smr_CommandBytes ack))))
             end
         end)
  end.

End Commands.

(** ** Reading a log *)

Definition writes_of (l : list event) : list Request :=
  omap (fun e => match e with EvWrite _ req => Some req | _ => None end) l.

Definition reads_of (l : list event) : list ResponseKind :=
  omap (fun e => match e with EvRead _ k => Some k | _ => None end) l.

Definition closes_of (t : token) (l : list event) : nat :=
  length (filter (fun e => e = EvClose t) l).

(** A world in which nothing has happened yet. *)
Definition fresh (wr : list (option error)) (rd : list incoming) : world :=
  mkWorld wr rd 0 [].

(** The events a computation appends to the log. *)
Definition trace {A} (c : M A) (w : world) : list event :=
  drop (length (log w)) (log (c w).2).

Definition is_close (e : event) : bool :=
  match e with EvClose _ => true | _ => false end.

(** A computation that creates no token and closes none. *)
Definition quiet {A} (c : M A) : Prop :=
  forall w,
    created (c w).2 = created w /\
    exists ev, log (c w).2 = (log w ++ ev)%list /\
               Forall (fun e => is_close e = false) ev.

(** The error a method returns, for each shape of result. *)
Definition result_error {A} (r : result A) : option error :=
  match r with Ok _ => None | Err e => Some e end.

Definition option_result_error {A} (r : option (result A)) : option error :=
  match r with Some (Err e) => Some e | _ => None end.

(** A method run under [ctx] creates the token [t], closes it as the last
    thing it does and at no other point; when [ctx] is done before the token
    is ready it does nothing in between and returns the error of [ctx]. *)
Definition releases_once {A} (failure : A -> option error) (ctx : Context)
    (c : M A) : Prop :=
  forall w,
    let t := created w in
    (exists mid, trace c w = EvCreate t :: (mid ++ [EvClose t])%list /\
                 Forall (fun e => is_close e = false) mid) /\
    closes_of t (trace c w) = 1%nat /\
    match ctx with
    | None => True
    | Some e => trace c w = [EvCreate t; EvClose t] /\ failure (c w).1 = Some e
    end.

(** The rounds of an enumeration that ends well, from the world [w] on:
    each round reads one record and asks for the next; the modem answers
    the last request, and only that one, with a command failure. *)
Inductive enumerates (device : token)
  : world -> AllLinkRecordList -> world -> Prop :=
| enumerates_last w w1 w2 w3 r :
    UnmarshalResponse device KAllLinkRecord w = (Ok r, w1) ->
    MarshalRequest device GetNextAllLinkRecordRequest w1 = (None, w2) ->
    UnmarshalResponse device KGetNextAllLinkRecord w2
      = (Err ErrCommandFailure, w3) ->
    enumerates device w [r] w3
| enumerates_next w w1 w2 w3 w' r u records :
    UnmarshalResponse device KAllLinkRecord w = (Ok r, w1) ->
    MarshalRequest device GetNextAllLinkRecordRequest w1 = (None, w2) ->
    UnmarshalResponse device KGetNextAllLinkRecord w2 = (Ok u, w3) ->
    enumerates device w3 records w' ->
    enumerates device w (r :: records) w'.

(** The messages [sendStandardMessage] and [sendExtendedMessage] write. *)
Definition standard_message (identity : Identity) (commandBytes : CommandBytes)
  : Request :=
  SendMessageRequest
    (mkSendRequest identity 2 3 x00 commandBytes UserData_zero).

Definition extended_message (identity : Identity) (commandBytes : CommandBytes)
    (userData : UserData) : Request :=
  SendMessageRequest
    (mkSendRequest identity 2 3 MessageFlagExtended commandBytes userData).

(** The key records are ordered by. *)
Definition AllLinkRecord_key (a : AllLinkRecord) : N :=
  (Byte.to_N (alr_Group a) * 16777216 + Identity_value (alr_ID a))%N.

(** A command that acquires the token, sends one message, reads the
    [SendMsgResponse] and returns its error: the shape of [Beep],
    [SetLightState] and the four setters. *)
Definition send_only (send : token -> M (result SendStandardOrExtendedMessageResponse))
  : M (option error) :=
  let! r := Acquire None in
  match r with
  | Err err => ret (Some err)
  | Ok device =>
      defer (Close device) (let! r := send device in ret (discard_value r))
  end.

(** One exchange: [c] writes the one message [request], and when that write
    succeeds it creates the token, writes, reads one [SendMsgResponse] and
    closes the token, and nothing else. *)
Definition one_exchange (c : M (option error)) (request : Request)
    (w : world) : Prop :=
  let device := created w in
  writes_of (trace c w) = [request] /\
  ((MarshalRequest device request (Acquire None w).2).1 = None ->
   trace c w
     = [EvCreate device; EvWrite device request;
        EvRead device KSendStandardOrExtendedMessage; EvClose device]).

(** ** Sample identities, records and modems *)

Definition id_112233 : Identity := mkIdentity x11 x22 x33.

(** The modem of scenario 2: it acknowledges the beep it is sent. *)
Definition modem_beep : world :=
  fresh [] [InFrame (SendMessageFrame
              (mkSendRequest id_112233 2 3 x00 CommandBytesBeep UserData_zero))].

(** Command bytes standing for the ones declared outside the files at
    hand. *)
Definition CommandBytes_19_00 : CommandBytes := mkCommandBytes x19 x00.
Definition CommandBytes_2e_00 : CommandBytes := mkCommandBytes x2e x00.
Definition id_aabbcc : Identity := mkIdentity xaa xbb xcc.

(** A modem that acknowledges a status request and then reports level
    [ff]. *)
Definition modem_status : world :=
  fresh []
    [InFrame (SendMessageFrame
                (mkSendRequest id_112233 2 3 x00 CommandBytes_19_00
                   UserData_zero));
     InFrame (StandardMessageReceived
                (mkStandardReceived id_112233 id_aabbcc x20
                   (mkCommandBytes x00 xff)))].

Definition record_1 : AllLinkRecord :=
  mkAllLinkRecord xe2 x01 (mkIdentity xaa xbb xcc) (x01, x02, x03).
Definition record_2 : AllLinkRecord :=
  mkAllLinkRecord xa2 x02 (mkIdentity x11 x22 x33) (x04, x05, x06).

(** The modem with an empty database (scenario 3), and the modem that
    holds two records and sends the one of group 2 first. *)
Definition modem_empty : world :=
  fresh [] [InNak KGetFirstAllLinkRecord].
Definition modem_two_records : world :=
  fresh [] [InFrame GetFirstAllLinkRecordFrame;
            InFrame (AllLinkRecordFrame record_2);
            InFrame GetNextAllLinkRecordFrame;
            InFrame (AllLinkRecordFrame record_1);
            InNak KGetNextAllLinkRecord].

(** A modem that sends one acknowledgement, echoing [request]. *)
Definition modem_ack (request : SendStandardOrExtendedMessageRequest) : world :=
  fresh [] [InFrame (SendMessageFrame request)].

End plm.

Module mime.

(** ** Go's [mime.ParseMediaType], as far as [decodeValue] looks at it

    Header values are taken to be ASCII. The media type is the part of the
    header before the first [;], put in lower case and trimmed; it has to be
    a token, or two tokens with a slash between them. *)

Definition ToLower_char (c : ascii) : ascii :=
  let n := nat_of_ascii c in
  if (65 <=? n)%nat && (n <=? 90)%nat then ascii_of_nat (n + 32) else c.

Fixpoint ToLower (s : string) : string :=
  match s with
  | EmptyString => EmptyString
  | String c s' => String (ToLower_char c) (ToLower s')
  end.

Definition IsSpace (c : ascii) : bool :=
  let n := nat_of_ascii c in
  ((9 <=? n)%nat && (n <=? 13)%nat) || (n =? 32)%nat.

Fixpoint TrimLeft (s : string) : string :=
  match s with
  | EmptyString => EmptyString
  | String c s' => if IsSpace c then TrimLeft s' else s
  end.

Fixpoint TrimRight (s : string) : string :=
  match s with
  | EmptyString => EmptyString
  | String c s' =>
      match TrimRight s' with
      | EmptyString => if IsSpace c then EmptyString else String c EmptyString
      | t => String c t
      end
  end.

Definition TrimSpace (s : string) : string := TrimRight (TrimLeft s).

(** [strings.Cut(v, ";")]: the part before the first [;], and the rest from
    that [;] on (the whole of [v] and nothing when there is none). *)
Fixpoint cut_params (v : string) : string * string :=
  match v with
  | EmptyString => (EmptyString, EmptyString)
  | String c v' =>
      if Ascii.eqb c ";" then (EmptyString, v)
      else let (base, rest) := cut_params v' in (String c base, rest)
  end.

Definition isTSpecial (c : ascii) : bool :=
  existsb (Ascii.eqb c)
    (ascii_of_nat 34 :: list_ascii_of_string "()<>@,;:\/[]?=").

Definition isTokenChar (c : ascii) : bool :=
  let n := nat_of_ascii c in
  (32 <? n)%nat && (n <? 127)%nat && negb (isTSpecial c).

(** [consumeToken]: the longest prefix of token characters, and the rest. *)
Fixpoint consumeToken (v : string) : string * string :=
  match v with
  | EmptyString => (EmptyString, EmptyString)
  | String c v' =>
      if isTokenChar c
      then let (token, rest) := consumeToken v' in (String c token, rest)
      else (EmptyString, v)
  end.

Definition checkMediaTypeDisposition (s : string) : option error :=
  let (typ, rest) := consumeToken s in
  if decide (typ = "") then Some (errors_New "mime: no media type")
  else if decide (rest = "") then None
  else
    match rest with
    | String "/" rest' =>
        let (subtype, rest'') := consumeToken rest' in
        if decide (subtype = "")
        then Some (errors_New "mime: expected token after slash")
        else if decide (rest'' = "") then None
        else Some (errors_New "mime: unexpected content after media subtype")
    | _ => Some (errors_New "mime: expected slash after first token")
    end.

Section ParseMediaType.

(** The outcome of reading the parameters that follow the media type (the
    header from its first [;] on): the error it stops at, if any. The
    grammar of parameters is left open. *)
Variable consumeMediaParams : string -> option error.

(** The media type and the error of [mime.ParseMediaType(v)]. *)
Definition ParseMediaType (v : string) : string * option error :=
  let (base, rest) := cut_params v in
  let mediatype := TrimSpace (ToLower base) in
  match checkMediaTypeDisposition mediatype with
  | Some err => ("", Some err)
  | None =>
      if decide (rest = "") then (mediatype, None)
      else
        match consumeMediaParams rest with
        | Some err => (mediatype, Some err)
        | None => (mediatype, None)
        end
  end.

End ParseMediaType.

End mime.

Module insteon.

(** ** [net/http]: the response being written *)

Record ResponseWriter : Type := mkResponseWriter {
  status : option nat;
  header_Content_Type : option string;
  body : string
}.

(** The writer a handler is given. *)
Definition ResponseWriter_new : ResponseWriter := mkResponseWriter None None "".

Definition StatusOK : nat := 200.
Definition StatusBadRequest : nat := 400.
Definition StatusNotFound : nat := 404.
Definition StatusInternalServerError : nat := 500.

(** [w.WriteHeader(code)]: the first status written is the one sent. *)
Definition WriteHeader (code : nat) (w : ResponseWriter) : ResponseWriter :=
  match status w with
  | Some _ => w
  | None => mkResponseWriter (Some code) (header_Content_Type w) (body w)
  end.

(** [w.Write]: writes the status 200 when none was written before. *)
Definition Write (data : string) (w : ResponseWriter) : ResponseWriter :=
  let w := WriteHeader StatusOK w in
  mkResponseWriter (status w) (header_Content_Type w) (body w +:+ data).

(** [w.Header().Set("Content-Type", v)]: of no effect once the status has
    been written. *)
Definition Header_Set_Content_Type (v : string) (w : ResponseWriter)
  : ResponseWriter :=
  match status w with
  | Some _ => w
  | None => mkResponseWriter (status w) (Some v) (body w)
  end.

(** [fmt.Fprintf(w, "%s", err)] *)
Definition Fprintf_error (err : error) (w : ResponseWriter) : ResponseWriter :=
  Write (Error err) w.

(** The configuration entry an alias resolves to. *)
Record ConfigurationDevice (ID : Type) : Type := mkConfigurationDevice {
  dev_ID : ID;
  SlaveDeviceIDs : list ID
}.
Arguments mkConfigurationDevice {ID} _ _.
Arguments dev_ID {ID} _.
Arguments SlaveDeviceIDs {ID} _.

Section WebService.

(** The value types of package [insteon] and the context of a request;
    they are declared outside the files at hand. *)
Variable ID : Type.
Variable LightState : Type.
Variable DeviceInfo : Type.
Variable Context : Type.

(** The request a handler is given: its body ([None] for [r.Body == nil]),
    [r.Header.Get("Content-Type")] (empty when the header is missing),
    [mux.Vars(r)] (a missing key reads as the empty string) and
    [r.Context()]. *)
Record Request : Type := mkRequest {
  Body : option string;
  Content_Type : string;
  Vars : string -> string;
  req_Context : Context
}.

(** The interface [PowerLineModem], over the state [Modem] of whatever
    implements it. *)
Record PowerLineModem (Modem : Type) : Type := mkPowerLineModem {
  GetDeviceState : Context -> ID -> Modem -> result LightState * Modem;
  SetDeviceState : Context -> ID -> LightState -> Modem -> option error * Modem;
  GetDeviceInfo : Context -> ID -> Modem -> result DeviceInfo * Modem;
  SetDeviceInfo : Context -> ID -> DeviceInfo -> Modem -> option error * Modem
}.

(** A call made through the interface. *)
Inductive Call : Type :=
| CallGetDeviceState (id : ID)
| CallSetDeviceState (id : ID) (state : LightState)
| CallGetDeviceInfo (id : ID)
| CallSetDeviceInfo (id : ID) (deviceInfo : DeviceInfo).

Variable Modem : Type.
Variable impl : PowerLineModem Modem.

(** Declared outside the files at hand: [ParseID], the lookup of an alias
    in the configuration, the JSON codec of the two value types (what
    [Decode] makes of a body, and the bytes [Encode] writes), and the
    reading of media-type parameters. *)
Variable ParseID : string -> result ID.
Variable LookupDevice : string -> result (ConfigurationDevice ID).
Variable consumeMediaParams : string -> option error.

(** The web service: the modem behind [s.PowerLineModem], and the calls
    made to it so far. *)
Record WebService : Type := mkWebService {
  modem : Modem;
  calls : list Call
}.

Definition PowerLineModem_GetDeviceState (ctx : Context) (id : ID)
    (s : WebService) : result LightState * WebService :=
  let (r, m) := GetDeviceState Modem impl ctx id (modem s) in
  (r, mkWebService m (calls s ++ [CallGetDeviceState id])).

Definition PowerLineModem_SetDeviceState (ctx : Context) (id : ID)
    (state : LightState) (s : WebService) : option error * WebService :=
  let (r, m) := SetDeviceState Modem impl ctx id state (modem s) in
  (r, mkWebService m (calls s ++ [CallSetDeviceState id state])).

Definition PowerLineModem_GetDeviceInfo (ctx : Context) (id : ID)
    (s : WebService) : result DeviceInfo * WebService :=
  let (r, m) := GetDeviceInfo Modem impl ctx id (modem s) in
  (r, mkWebService m (calls s ++ [CallGetDeviceInfo id])).

Definition PowerLineModem_SetDeviceInfo (ctx : Context) (id : ID)
    (deviceInfo : DeviceInfo) (s : WebService) : option error * WebService :=
  let (r, m) := SetDeviceInfo Modem impl ctx id deviceInfo (modem s) in
  (r, mkWebService m (calls s ++ [CallSetDeviceInfo id deviceInfo])).

Definition parseID (w : ResponseWriter) (r : Request)
  : option ID * ResponseWriter :=
  let idStr := Vars r "id" in
  if decide (idStr = "") then
    let err := errors_New "invalid empty device id" in
    let w := WriteHeader StatusNotFound w in
    let w := Fprintf_error err w in
    (None, w)
  else
    match ParseID idStr with
    | Err err =>
        let w := WriteHeader StatusNotFound w in
        let w := Fprintf_error err w in
        (None, w)
    | Ok id => (Some id, w)
    end.

Definition parseDevice (w : ResponseWriter) (r : Request)
  : option (ConfigurationDevice ID) * ResponseWriter :=
  let id := Vars r "device" in
  if decide (id = "") then
    let err := errors_New "invalid empty device identifier" in
    let w := WriteHeader StatusNotFound w in
    let w := Fprintf_error err w in
    (None, w)
  else
    match LookupDevice id with
    | Err err =>
        let w := WriteHeader StatusNotFound w in
        let w := Fprintf_error err w in
        (None, w)
    | Ok device => (Some device, w)
    end.

(** [decodeValue(w, r, value)]: [Some] of the decoded value for [true]. *)
Definition decodeValue {V : Type} (Decode : string -> result V)
    (w : ResponseWriter) (r : Request) : option V * ResponseWriter :=
  match Body r with
  | None =>
      let err := errors_New "missing body" in
      let w := WriteHeader StatusBadRequest w in
      let w := Fprintf_error err w in
      (None, w)
  | Some data =>
      let (mediatype, err) :=
        mime.ParseMediaType consumeMediaParams (Content_Type r) in
      match err with
      | Some err =>
          let w := WriteHeader StatusBadRequest w in
          let w := Fprintf_error err w in
          (None, w)
      | None =>
          if bool_decide (mediatype = "")
             || bool_decide (mediatype = "application/json")
          then
            match Decode data with
            | Err err =>
                let w := WriteHeader StatusBadRequest w in
                let w := Fprintf_error err w in
                (None, w)
            | Ok value => (Some value, w)
            end
          else
            let err := errors_New "expected body of type application/json" in
            let w := WriteHeader StatusBadRequest w in
            let w := Fprintf_error err w in
            (None, w)
      end
  end.

Definition handleError (w : ResponseWriter) (r : Request) (err : error)
  : ResponseWriter :=
  let w := WriteHeader StatusInternalServerError w in
  Fprintf_error err w.

Definition handleValue {V : Type} (Encode : V -> string)
    (w : ResponseWriter) (r : Request) (value : V) : ResponseWriter :=
  let w := Header_Set_Content_Type "application/json" w in
  let w := WriteHeader StatusOK w in
  Write (Encode value) w.

Variable Decode_LightState : string -> result LightState.
Variable Encode_LightState : LightState -> string.
Variable Decode_DeviceInfo : string -> result DeviceInfo.
Variable Encode_DeviceInfo : DeviceInfo -> string.

Definition handleGetDeviceState (w : ResponseWriter) (r : Request)
    (s : WebService) : ResponseWriter * WebService :=
  match parseID w r with
  | (None, w) => (w, s)
  | (Some id, w) =>
      match PowerLineModem_GetDeviceState (req_Context r) id s with
      | (Err err, s) => (handleError w r err, s)
      | (Ok state, s) => (handleValue Encode_LightState w r state, s)
      end
  end.

Definition handleSetDeviceState (w : ResponseWriter) (r : Request)
    (s : WebService) : ResponseWriter * WebService :=
  match parseID w r with
  | (None, w) => (w, s)
  | (Some id, w) =>
      match decodeValue Decode_LightState w r with
      | (None, w) => (w, s)
      | (Some state, w) =>
          match PowerLineModem_SetDeviceState (req_Context r) id state s with
          | (Some err, s) => (handleError w r err, s)
          | (None, s) => (handleValue Encode_LightState w r state, s)
          end
      end
  end.

Definition handleGetDeviceInfo (w : ResponseWriter) (r : Request)
    (s : WebService) : ResponseWriter * WebService :=
  match parseID w r with
  | (None, w) => (w, s)
  | (Some id, w) =>
      match PowerLineModem_GetDeviceInfo (req_Context r) id s with
      | (Err err, s) => (handleError w r err, s)
      | (Ok deviceInfo, s) =>
          (handleValue Encode_DeviceInfo w r deviceInfo, s)
      end
  end.

Definition handleSetDeviceInfo (w : ResponseWriter) (r : Request)
    (s : WebService) : ResponseWriter * WebService :=
  match parseID w r with
  | (None, w) => (w, s)
  | (Some id, w) =>
      match decodeValue Decode_DeviceInfo w r with
      | (None, w) => (w, s)
      | (Some deviceInfo, w) =>
          match PowerLineModem_SetDeviceInfo (req_Context r) id deviceInfo s
          with
          | (Some err, s) => (handleError w r err, s)
          | (None, s) => (handleValue Encode_DeviceInfo w r deviceInfo, s)
          end
      end
  end.

(** [for _, id := range ids { s.PowerLineModem.SetDeviceState(ctx, id, state) }]:
    the error of each call is dropped. *)
Fixpoint range_SetDeviceState (ctx : Context) (ids : list ID)
    (state : LightState) (s : WebService) : WebService :=
  match ids with
  | [] => s
  | id :: ids =>
      let (_, s) := PowerLineModem_SetDeviceState ctx id state s in
      range_SetDeviceState ctx ids state s
  end.

Fixpoint range_SetDeviceInfo (ctx : Context) (ids : list ID)
    (deviceInfo : DeviceInfo) (s : WebService) : WebService :=
  match ids with
  | [] => s
  | id :: ids =>
      let (_, s) := PowerLineModem_SetDeviceInfo ctx id deviceInfo s in
      range_SetDeviceInfo ctx ids deviceInfo s
  end.

Definition handleAPISetDeviceState (w : ResponseWriter) (r : Request)
    (s : WebService) : ResponseWriter * WebService :=
  match parseDevice w r with
  | (None, w) => (w, s)
  | (Some device, w) =>
      match decodeValue Decode_LightState w r with
      | (None, w) => (w, s)
      | (Some state, w) =>
          match PowerLineModem_SetDeviceState (req_Context r)
                  (dev_ID device) state s with
          | (Some err, s) => (handleError w r err, s)
          | (None, s) =>
              let s := range_SetDeviceState (req_Context r)
                         (SlaveDeviceIDs device) state s in
              (handleValue Encode_LightState w r state, s)
          end
      end
  end.

Definition handleAPISetDeviceInfo (w : ResponseWriter) (r : Request)
    (s : WebService) : ResponseWriter * WebService :=
  match parseDevice w r with
  | (None, w) => (w, s)
  | (Some device, w) =>
      match decodeValue Decode_DeviceInfo w r with
      | (None, w) => (w, s)
      | (Some deviceInfo, w) =>
          match PowerLineModem_SetDeviceInfo (req_Context r)
                  (dev_ID device) deviceInfo s with
          | (Some err, s) => (handleError w r err, s)
          | (None, s) =>
              let s := range_SetDeviceInfo (req_Context r)
                         (SlaveDeviceIDs device) deviceInfo s in
              (handleValue Encode_DeviceInfo w r deviceInfo, s)
          end
      end
  end.

End WebService.

Arguments mkRequest {Context} _ _ _ _.
Arguments Body {Context} _.
Arguments Content_Type {Context} _.
Arguments Vars {Context} _ _.
Arguments req_Context {Context} _.
Arguments mkPowerLineModem {ID LightState DeviceInfo Context Modem} _ _ _ _.
Arguments GetDeviceState {ID LightState DeviceInfo Context Modem} _ _ _ _.
Arguments SetDeviceState {ID LightState DeviceInfo Context Modem} _ _ _ _ _.
Arguments GetDeviceInfo {ID LightState DeviceInfo Context Modem} _ _ _ _.
Arguments SetDeviceInfo {ID LightState DeviceInfo Context Modem} _ _ _ _ _.
Arguments CallGetDeviceState {ID LightState DeviceInfo} _.
Arguments CallSetDeviceState {ID LightState DeviceInfo} _ _.
Arguments CallGetDeviceInfo {ID LightState DeviceInfo} _.
Arguments CallSetDeviceInfo {ID LightState DeviceInfo} _ _.
Arguments mkWebService {ID LightState DeviceInfo Modem} _ _.
Arguments modem {ID LightState DeviceInfo Modem} _.
Arguments calls {ID LightState DeviceInfo Modem} _.
Arguments parseID {ID Context} _ _ _.
Arguments parseDevice {ID Context} _ _ _.
Arguments decodeValue {Context} _ {V} _ _ _.
Arguments handleError {Context} _ _ _.
Arguments handleValue {Context V} _ _ _ _.
Arguments handleGetDeviceState {ID LightState DeviceInfo Context Modem} _ _ _ _ _ _.
Arguments handleSetDeviceState {ID LightState DeviceInfo Context Modem} _ _ _ _ _ _ _ _.
Arguments handleGetDeviceInfo {ID LightState DeviceInfo Context Modem} _ _ _ _ _ _.
Arguments handleSetDeviceInfo {ID LightState DeviceInfo Context Modem} _ _ _ _ _ _ _ _.
Arguments handleAPISetDeviceState {ID LightState DeviceInfo Context Modem} _ _ _ _ _ _ _ _.
Arguments handleAPISetDeviceInfo {ID LightState DeviceInfo Context Modem} _ _ _ _ _ _ _ _.

End insteon.

Module example.
Import insteon.

(** A configuration with one alias, [kitchen], of primary identity 1 and
    slave identities 2 and 3, and a modem that records the identities it is
    asked to set and fails on identity 2. *)
Definition impl : PowerLineModem nat nat nat unit (list nat) :=
  mkPowerLineModem
    (fun _ id m => (Ok 0%nat, m))
    (fun _ id _ m =>
       (if (id =? 2)%nat then Some (errors_New "no answer") else None,
        (m ++ [id])%list))
    (fun _ id m => (Ok 0%nat, m))
    (fun _ id _ m =>
       (if (id =? 2)%nat then Some (errors_New "no answer") else None,
        (m ++ [id])%list)).

Definition LookupDevice (alias : string) : result (ConfigurationDevice nat) :=
  if decide (alias = "kitchen") then Ok (mkConfigurationDevice 1%nat [2%nat; 3%nat])
  else Err (errors_New "unknown device").

Definition ParseID (s : string) : result nat :=
  if decide (s = "00.00.01") then Ok 1%nat else Err (errors_New "invalid id").

Definition Decode (data : string) : result nat :=
  if decide (data = "255") then Ok 255%nat
  else Err (errors_New "invalid character").

Definition Encode (value : nat) : string := "255".

Definition no_params_error (rest : string) : option error := None.

Definition request : Request unit :=
  mkRequest (Some "255") "application/json"
    (fun key => if decide (key = "device") then "kitchen"
                else if decide (key = "id") then "00.00.01" else "")
    tt.

Definition service : WebService nat nat nat (list nat) := mkWebService [] [].

End example.

(** * More of the command layer *)

Module plm_more.
Import plm.

(** What one round of the enumeration does: it reads a record, asks for the
    next one and reads the reply. *)
Definition round_events (device : token) : list event :=
  [EvRead device KAllLinkRecord;
   EvWrite device GetNextAllLinkRecordRequest;
   EvRead device KGetNextAllLinkRecord].

(** [n] rounds in a row. *)
Fixpoint rounds_events (device : token) (n : nat) : list event :=
  match n with
  | O => []
  | S n => (round_events device ++ rounds_events device n)%list
  end.

(** The rounds of an enumeration that ends badly with the error [e]: after
    some complete rounds, the read of a record fails, or the request for the
    next record cannot be written, or its reply fails with an error other
    than a command failure. *)
Inductive enumeration_fails (device : token)
  : world -> error -> world -> Prop :=
| fails_record w e w1 :
    UnmarshalResponse device KAllLinkRecord w = (Err e, w1) ->
    enumeration_fails device w e w1
| fails_write w r w1 e w2 :
    UnmarshalResponse device KAllLinkRecord w = (Ok r, w1) ->
    MarshalRequest device GetNextAllLinkRecordRequest w1 = (Some e, w2) ->
    enumeration_fails device w e w2
| fails_reply w r w1 w2 e w3 :
    UnmarshalResponse device KAllLinkRecord w = (Ok r, w1) ->
    MarshalRequest device GetNextAllLinkRecordRequest w1 = (None, w2) ->
    UnmarshalResponse device KGetNextAllLinkRecord w2 = (Err e, w3) ->
    e <> ErrCommandFailure ->
    enumeration_fails device w e w3
| fails_later w r w1 w2 u w3 e w' :
    UnmarshalResponse device KAllLinkRecord w = (Ok r, w1) ->
    MarshalRequest device GetNextAllLinkRecordRequest w1 = (None, w2) ->
    UnmarshalResponse device KGetNextAllLinkRecord w2 = (Ok u, w3) ->
    enumeration_fails device w3 e w' ->
    enumeration_fails device w e w'.

(** A command that stops at a failed write: it returns the error of the
    write and has done nothing but create the token, write and close. *)
Definition stops_at_write {A} (failure : A -> option error) (c : M A)
    (request : Request) (w : world) : Prop :=
  let device := created w in
  forall e,
    (MarshalRequest device request (Acquire None w).2).1 = Some e ->
    failure (c w).1 = Some e /\
    trace c w = [EvCreate device; EvWrite device request; EvClose device].

(** A command that stops at a failed first reply: the write having
    succeeded, it returns the error of the read of the reply of kind [k] and
    has read nothing else. *)
Definition stops_at_reply {A} (failure : A -> option error) (c : M A)
    (request : Request) (k : ResponseKind) (w : world) : Prop :=
  let device := created w in
  forall w1 e w2,
    MarshalRequest device request (Acquire None w).2 = (None, w1) ->
    UnmarshalResponse device k w1 = (Err e, w2) ->
    failure (c w).1 = Some e /\
    trace c w
      = [EvCreate device; EvWrite device request; EvRead device k;
         EvClose device].

Definition write_error : error := errors_New "write: broken pipe".

(** A modem that cannot be written to, though frames arrive from it. *)
Definition modem_unwritable : world :=
  fresh [Some write_error]
    [InFrame (SendMessageFrame
                (mkSendRequest id_112233 2 3 x00 CommandBytes_19_00
                   UserData_zero));
     InFrame (StandardMessageReceived
                (mkStandardReceived id_112233 id_aabbcc x20
                   (mkCommandBytes x00 xff)))].

(** A modem that answers every message with a nak, and then reports a
    level. *)
Definition modem_nak : world :=
  fresh []
    [InNak KSendStandardOrExtendedMessage;
     InFrame (StandardMessageReceived
                (mkStandardReceived id_112233 id_aabbcc x20
                   (mkCommandBytes x00 xff)))].

Definition IMInfo_1a2b3c : IMInfo :=
  mkIMInfo (mkIdentity x1a x2b x3c) x01 x20 x9b.

(** The modem of scenario 1. *)
Definition modem_info : world := fresh [] [InFrame (GetIMInfoFrame IMInfo_1a2b3c)].

Definition user_data_sample : UserData :=
  [x00; x01; x00; x00; x00; x60; x0c; x1c; xff; x7f; x20; x00; x00; x00].

(** A modem that acknowledges a request for the device info, and then sends
    the ack of the device and its info. *)
Definition modem_device_info : world :=
  fresh []
    [InFrame (SendMessageFrame
                (mkSendRequest id_112233 2 3 x10 CommandBytes_2e_00
                   UserData_zero));
     InFrame (StandardMessageReceived
                (mkStandardReceived id_112233 id_aabbcc x20 CommandBytes_2e_00));
     InFrame (ExtendedMessageReceived
                (mkExtendedReceived id_112233 id_aabbcc x10 CommandBytes_2e_00
                   user_data_sample))].

(** A modem that holds one record, acknowledges the request for the next
    one and then sends nothing. *)
Definition modem_silent : world :=
  fresh [] [InFrame GetFirstAllLinkRecordFrame;
            InFrame (AllLinkRecordFrame record_1);
            InFrame GetNextAllLinkRecordFrame].

End plm_more.

(** * The two background loops of the modem *)

Module plm_loops.
Import plm.

(** What a goroutine panics with: the value given to [panic] (an [error],
    possibly nil), or the run-time error of an index out of range. *)
Inductive panic : Type :=
| PanicError (err : option error)
| PanicIndexOutOfRange.

(** [panicStop(stop, err)]: [stopped] says whether the channel [stop] is
    closed when the [select] looks at it. [Some p] is the panic. *)
Definition panicStop (stopped : bool) (err : option error) : option panic :=
  if stopped then None else Some (PanicError err).

(** ** [dispatchLoop] *)

Inductive dispatch_event : Type :=
| EvReady (t : token)
| EvConnect (t : token).

(** [dispatchLoop(stop, tokens, c)]. [tokens] are the tokens the channel
    delivers, in the order it delivers them, until it is closed; [c token]
    is what [c.Connect] returns for the pipe of that token, when the
    connection ends; [stop token] is whether [stop] is closed at that
    moment. The outcome is what the loop did, and the panic it ended with,
    if any ([None] when the range over the channel ends). *)
Fixpoint dispatchLoop (stop : token -> bool) (tokens : list token)
    (c : token -> option error) : list dispatch_event * option panic :=
  match tokens with
  | [] => ([], None)
  | token :: tokens =>
      let err := c token in
      let next :=
        let (events, p) := dispatchLoop stop tokens c in
        (EvReady token :: EvConnect token :: events, p) in
      if decide (err = Some io_ErrClosedPipe) then next
      else
        match panicStop (stop token) err with
        | Some p => ([EvReady token; EvConnect token], Some p)
        | None => next
        end
  end.

(** The events of serving the tokens [served] one after the other. *)
Definition serving (served : list token) : list dispatch_event :=
  flat_map (fun t => [EvReady t; EvConnect t]) served.

(** ** [readLoop] *)

(** A response struct lives in memory, and the reader and the monitor hold
    pointers to it. *)
Definition pointer : Type := nat.

Record reader : Type := mkReader {
  heap : list (option Frame);
  responses : list pointer;
  received : list pointer
}.

(** [resetResponses]: two new structs, one for each kind of message. *)
Definition resetResponses (s : reader) : reader :=
  let p := length (heap s) in
  mkReader (heap s ++ [None; None]) [p; S p] (received s).

(** The decoder writes the frame [f] to the struct [responses[i]] points
    to. *)
Definition fill (i : nat) (f : Frame) (s : reader) : reader :=
  match responses s !! i with
  | Some p => mkReader (<[p := Some f]> (heap s)) (responses s) (received s)
  | None => s
  end.

(** What one call of [UnmarshalResponses(r, responses)] does: it decodes
    the frame [f] into [responses[i]] and returns [i], or it fails with [e],
    having written [partial] to some of the structs. The decoder is declared
    outside the files at hand, and any sequence of such outcomes is
    considered. *)
Inductive decoding : Type :=
| Decoded (i : nat) (f : Frame)
| Failed (e : error) (partial : list (nat * Frame)).

Definition UnmarshalResponses (o : decoding) (s : reader)
  : nat * option error * reader :=
  match o with
  | Decoded i f => (i, None, fill i f s)
  | Failed e partial =>
      (O, Some e, fold_left (fun s jf => fill jf.1 jf.2 s) partial s)
  end.

(** [readFunc(responses[i])]: the monitor is handed the pointer. *)
Definition readFunc (p : pointer) (s : reader) : reader :=
  mkReader (heap s) (responses s) (received s ++ [p]).

(** The [for] loop of [readLoop], over the outcomes of the successive calls
    of the decoder, each with the state of [stop] at that time. [monitored]
    is [readFunc != nil]. The loop has no exit: the outcome is the state
    when the input is used up, the loop being about to read again, or the
    panic that ended it. *)
Fixpoint readLoop_for (monitored : bool) (input : list (decoding * bool))
    (s : reader) : reader * option panic :=
  match input with
  | [] => (s, None)
  | (o, stopped) :: input =>
      let '(i, err, s) := UnmarshalResponses o s in
      let failure :=
        match err with
        | Some e =>
            if decide (e = ErrCommandFailure) then None
            else panicStop stopped err
        | None => None
        end in
      match failure with
      | Some p => (s, Some p)
      | None =>
          if monitored then
            match err with
            | None =>
                match responses s !! i with
                | None => (s, Some PanicIndexOutOfRange)
                | Some p =>
                    readLoop_for monitored input
                      (resetResponses (readFunc p s))
                end
            | Some _ => readLoop_for monitored input (resetResponses s)
            end
          else readLoop_for monitored input s
      end
  end.

Definition readLoop (monitored : bool) (input : list (decoding * bool))
  : reader * option panic :=
  let s := mkReader [] [] [] in
  let s := if monitored then resetResponses s else s in
  readLoop_for monitored input s.

(** The frames the monitor holds: what its pointers point to now. *)
Definition monitor_frames (s : reader) : list (option Frame) :=
  map (fun p => mjoin (heap s !! p)) (received s).

(** The frames a sequence of calls decoded. *)
Definition frames_decoded (input : list (decoding * bool)) : list Frame :=
  omap (fun ob => match ob.1 with Decoded _ f => Some f | Failed _ _ => None end)
       input.

(** A failure that is not a command failure, met while [stop] is open. *)
Definition fatal (ob : decoding * bool) : bool :=
  match ob with
  | (Failed e _, false) => bool_decide (e <> ErrCommandFailure)
  | _ => false
  end.

(** The decoder returns the index of one of the two structs it is given. *)
Definition in_range (ob : decoding * bool) : bool :=
  match ob.1 with
  | Decoded i _ => (i <? 2)%nat
  | Failed _ _ => true
  end.

Definition frame_on : Frame :=
  StandardMessageReceived
    (mkStandardReceived id_aabbcc (mkIdentity x00 x00 x01) xcb
       (mkCommandBytes x13 x00)).
Definition frame_info : Frame :=
  ExtendedMessageReceived
    (mkExtendedReceived id_aabbcc id_112233 x10 CommandBytes_2e_00
       UserData_zero).

(** A stream that delivers a message, a frame ending in a nak that was
    partly decoded over the first struct, a second message, and then breaks
    while the modem runs. *)
Definition stream_sample : list (decoding * bool) :=
  [(Decoded 0 frame_on, false);
   (Failed ErrCommandFailure [(0%nat, frame_info)], false);
   (Decoded 1 frame_info, false);
   (Failed io_EOF [], false);
   (Decoded 0 frame_on, false)].

(** The invariant of the monitored loop: the reader holds the two structs
    allocated last, and the monitor holds older ones. *)
Definition fresh_pair (s : reader) : Prop :=
  exists a, responses s = [a; S a] /\ length (heap s) = S (S a) /\
            Forall (fun p => p < a) (received s).

End plm_loops.

(** * Starting and stopping the modem *)

Module plm_run.
Import plm.

(** Channels, pipes, devices, monitors and debug streams are known by
    their number. *)
Definition chan : Type := nat.

(** The readers and writers the modem is built from. *)
Inductive Reader : Type :=
| DeviceReader (device : nat)
| DebugReader (r : Reader) (stream : nat)
| TeeReader (r : Reader) (pipe : nat).

Inductive Writer : Type :=
| DeviceWriter (device : nat)
| DebugWriter (w : Writer) (stream : nat).

(** The struct [PowerLineModem]; a nil channel or interface is [None]. The
    alias table is left out: the functions of this file only make it. *)
Record PowerLineModem : Type := mkPowerLineModem {
  reader : Reader;
  writer : Writer;
  closer : nat;
  tokens : option chan;
  stop : option chan;
  pipe : option nat;
  monitor : option nat
}.

(** A goroutine, with the arguments it was started with. *)
Inductive goroutine : Type :=
| go_readLoop (stop : chan) (r : Reader) (readFunc : option nat)
| go_dispatchLoop (stop : chan) (tokens : chan) (c : nat).

(** What exists at run time: for each channel and each connected pipe made
    so far whether it is closed, the devices closed so far, and the
    goroutines started so far. *)
Record runtime : Type := mkRuntime {
  channels : list bool;
  pipes : list bool;
  closed_devices : list nat;
  goroutines : list goroutine
}.

(** The run-time panics of the statements used here. *)
Inductive fault : Type :=
| close_of_nil_channel
| close_of_closed_channel
| send_on_closed_channel
| nil_dereference.

(** [make(chan T)] *)
Definition make_chan (rt : runtime) : chan * runtime :=
  (length (channels rt),
   mkRuntime (channels rt ++ [false]) (pipes rt) (closed_devices rt)
     (goroutines rt)).

(** [&ConnectedPipe{}] *)
Definition new_ConnectedPipe (rt : runtime) : nat * runtime :=
  (length (pipes rt),
   mkRuntime (channels rt) (pipes rt ++ [false]) (closed_devices rt)
     (goroutines rt)).

(** [go f(...)] *)
Definition go (g : goroutine) (rt : runtime) : runtime :=
  mkRuntime (channels rt) (pipes rt) (closed_devices rt) (goroutines rt ++ [g]).

(** [close(c)]: closing the nil channel panics, and so does closing a closed
    channel. *)
Definition close (c : option chan) (rt : runtime) : option fault * runtime :=
  match c with
  | None => (Some close_of_nil_channel, rt)
  | Some c =>
      match channels rt !! c with
      | Some false =>
          (None,
           mkRuntime (<[c := true]> (channels rt)) (pipes rt)
             (closed_devices rt) (goroutines rt))
      | _ => (Some close_of_closed_channel, rt)
      end
  end.

(** [p.Close()] of a connected pipe held in an interface. *)
Definition pipe_Close (p : option nat) (rt : runtime) : option fault * runtime :=
  match p with
  | None => (Some nil_dereference, rt)
  | Some p =>
      (None,
       mkRuntime (channels rt) (<[p := true]> (pipes rt)) (closed_devices rt)
         (goroutines rt))
  end.

(** [device.Close()] *)
Definition device_Close (device : nat) (rt : runtime) : runtime :=
  mkRuntime (channels rt) (pipes rt) (closed_devices rt ++ [device])
    (goroutines rt).

Definition New (device : nat) : PowerLineModem :=
  mkPowerLineModem (DeviceReader device) (DeviceWriter device) device
    None None None None.

Definition SetDebugStream (w : nat) (m : PowerLineModem) : PowerLineModem :=
  mkPowerLineModem (DebugReader (reader m) w) (DebugWriter (writer m) w)
    (closer m) (tokens m) (stop m) (pipe m) (monitor m).

(** [Start(monitor)]; it returns a nil error. *)
Definition Start (monitor : option nat) (m : PowerLineModem) (rt : runtime)
  : PowerLineModem * runtime :=
  let readFunc := monitor in
  let (pipe, rt) := new_ConnectedPipe rt in
  let reader := TeeReader (reader m) pipe in
  let (stop, rt) := make_chan rt in
  let rt := go (go_readLoop stop reader readFunc) rt in
  let (tokens, rt) := make_chan rt in
  let rt := go (go_dispatchLoop stop tokens pipe) rt in
  (mkPowerLineModem (plm_run.reader m) (writer m) (closer m)
     (Some tokens) (Some stop) (Some pipe) monitor,
   rt).

(** [Stop()]: the modem as the statements run so far have left it, with the
    panic that cut them short, if any. *)
Definition Stop (m : PowerLineModem) (rt : runtime)
  : option fault * PowerLineModem * runtime :=
  match close (stop m) rt with
  | (Some f, rt) => (Some f, m, rt)
  | (None, rt) =>
      let m := mkPowerLineModem (reader m) (writer m) (closer m) (tokens m)
                 None (pipe m) (monitor m) in
      match close (tokens m) rt with
      | (Some f, rt) => (Some f, m, rt)
      | (None, rt) =>
          let m := mkPowerLineModem (reader m) (writer m) (closer m) None
                     None (pipe m) (monitor m) in
          match pipe_Close (pipe m) rt with
          | (Some f, rt) => (Some f, m, rt)
          | (None, rt) => (None, m, rt)
          end
      end
  end.

Definition Close (m : PowerLineModem) (rt : runtime)
  : option fault * PowerLineModem * runtime :=
  match Stop m rt with
  | (Some f, m, rt) => (Some f, m, rt)
  | (None, m, rt) => (None, m, device_Close (closer m) rt)
  end.

(** What becomes of a call that waits on a channel. *)
Inductive waiting (A : Type) : Type :=
| Returns (a : A)
| BlocksForever
| Panics (f : fault).
Arguments Returns {A} a.
Arguments BlocksForever {A}.
Arguments Panics {A} f.

(** [Acquire] on the modem [m]. [createToken] sends the token on
    [m.tokens], a channel with no buffer, before the [select] is reached:
    the send on a nil channel blocks for ever, the send on a closed channel
    panics, and the send on an open channel returns once the dispatcher has
    received the token ([received]), from where [Acquire] goes on as
    [plm.Acquire] has it. *)
Definition Acquire_on (m : PowerLineModem) (rt : runtime) (received : bool)
    (ctx : Context) : world -> waiting (result token * world) :=
  fun w =>
    match tokens m with
    | None => BlocksForever
    | Some c =>
        match channels rt !! c with
        | Some false =>
            if received then Returns (Acquire ctx w) else BlocksForever
        | _ => Panics send_on_closed_channel
        end
    end.

End plm_run.

(** * The other handlers of the web service *)

Module insteon_more.
Import insteon.

Section Handlers.

Variable ID : Type.
Variable LightState : Type.
Variable DeviceInfo : Type.
Variable Context : Type.
Variable Modem : Type.
Variable impl : PowerLineModem ID LightState DeviceInfo Context Modem.
Variable ParseID : string -> result ID.
Variable LookupDevice : string -> result (ConfigurationDevice ID).
Variable Encode_LightState : LightState -> string.
Variable Encode_DeviceInfo : DeviceInfo -> string.

Definition handleAPIGetDeviceState (w : ResponseWriter) (r : Request Context)
    (s : WebService ID LightState DeviceInfo Modem)
  : ResponseWriter * WebService ID LightState DeviceInfo Modem :=
  match parseDevice LookupDevice w r with
  | (None, w) => (w, s)
  | (Some device, w) =>
      match PowerLineModem_GetDeviceState ID LightState DeviceInfo Context
              Modem impl (req_Context r) (dev_ID device) s with
      | (Err err, s) => (handleError w r err, s)
      | (Ok state, s) => (handleValue Encode_LightState w r state, s)
      end
  end.

Definition handleAPIGetDeviceInfo (w : ResponseWriter) (r : Request Context)
    (s : WebService ID LightState DeviceInfo Modem)
  : ResponseWriter * WebService ID LightState DeviceInfo Modem :=
  match parseDevice LookupDevice w r with
  | (None, w) => (w, s)
  | (Some device, w) =>
      match PowerLineModem_GetDeviceInfo ID LightState DeviceInfo Context
              Modem impl (req_Context r) (dev_ID device) s with
      | (Err err, s) => (handleError w r err, s)
      | (Ok deviceInfo, s) =>
          (handleValue Encode_DeviceInfo w r deviceInfo, s)
      end
  end.

(** The three methods of the interface that the record [PowerLineModem]
    above does not hold, and the types and encoders they need. The handlers
    that use them run on the state of the modem itself. *)
Variable IMInfo : Type.
Variable AllLinkRecordList : Type.
Variable Encode_IMInfo : IMInfo -> string.
Variable Encode_AllLinkRecordList : AllLinkRecordList -> string.
Variable GetIMInfo : Context -> Modem -> result IMInfo * Modem.
Variable GetAllLinkDB : Context -> Modem -> result AllLinkRecordList * Modem.
Variable Beep : Context -> ID -> Modem -> option error * Modem.

Definition handleGetIMInfo (w : ResponseWriter) (r : Request Context)
    (m : Modem) : ResponseWriter * Modem :=
  match GetIMInfo (req_Context r) m with
  | (Err err, m) => (handleError w r err, m)
  | (Ok imInfo, m) => (handleValue Encode_IMInfo w r imInfo, m)
  end.

Definition handleGetAllLinkDB (w : ResponseWriter) (r : Request Context)
    (m : Modem) : ResponseWriter * Modem :=
  match GetAllLinkDB (req_Context r) m with
  | (Err err, m) => (handleError w r err, m)
  | (Ok records, m) => (handleValue Encode_AllLinkRecordList w r records, m)
  end.

Definition handleBeep (w : ResponseWriter) (r : Request Context) (m : Modem)
  : ResponseWriter * Modem :=
  match parseID ParseID w r with
  | (None, w) => (w, m)
  | (Some id, w) =>
      match Beep (req_Context r) id m with
      | (Some err, m) => (handleError w r err, m)
      | (None, m) => (w, m)
      end
  end.

End Handlers.

Arguments handleAPIGetDeviceState {ID LightState DeviceInfo Context Modem} _ _ _ _ _ _.
Arguments handleAPIGetDeviceInfo {ID LightState DeviceInfo Context Modem} _ _ _ _ _ _.
Arguments handleGetIMInfo {Context Modem IMInfo} _ _ _ _ _.
Arguments handleGetAllLinkDB {Context Modem AllLinkRecordList} _ _ _ _ _.
Arguments handleBeep {ID Context Modem} _ _ _ _ _.

(** The status a response has once it is sent: 200 when the handler wrote
    none. *)
Definition status_sent (w : ResponseWriter) : nat :=
  match status w with
  | Some code => code
  | None => StatusOK
  end.

(** What a read of a device is answered with: the value, encoded, or the
    error. *)
Definition answer {V : Type} (Encode : V -> string) (r : result V)
  : ResponseWriter :=
  match r with
  | Ok value =>
      mkResponseWriter (Some StatusOK) (Some "application/json") (Encode value)
  | Err err =>
      mkResponseWriter (Some StatusInternalServerError) None (Error err)
  end.

(** How a PUT ends, [found] being the identity or the device its route
    resolved to, if any: with one of four statuses; with 404 exactly when
    nothing was found; and with the service as it was when the status is
    404 or 400. *)
Definition put_outcome {S A : Type} (found : option A) (s : S)
    (out : ResponseWriter * S) : Prop :=
  let code := status out.1 in
  (code = Some StatusOK \/ code = Some StatusBadRequest \/
   code = Some StatusNotFound \/ code = Some StatusInternalServerError) /\
  (code = Some StatusNotFound <-> found = None) /\
  (code = Some StatusNotFound \/ code = Some StatusBadRequest -> out.2 = s).

End insteon_more.

Module example_more.
Import insteon.

(** A modem that tells the state [7] of identity 1 and fails on any other
    identity, and records the identities it is asked about. *)
Definition impl : PowerLineModem nat nat nat unit (list nat) :=
  mkPowerLineModem
    (fun _ id m =>
       (if (id =? 1)%nat then Ok 7%nat else Err (errors_New "no answer"),
        (m ++ [id])%list))
    (fun _ id _ m => (None, (m ++ [id])%list))
    (fun _ id m => (Ok 0%nat, (m ++ [id])%list))
    (fun _ id _ m => (None, (m ++ [id])%list)).

Definition Encode (value : nat) : string :=
  if (value =? 7)%nat then "7" else "0".

(** A request with no body and a content type that is not JSON, for an
    identity that does not parse. *)
Definition request_bad_id : Request unit :=
  mkRequest None "text/plain"
    (fun key => if decide (key = "id") then "kitchen" else "") tt.

(** A request for a known identity with a body that is not JSON. *)
Definition request_bad_body : Request unit :=
  mkRequest (Some "on") "application/json"
    (fun key => if decide (key = "id") then "00.00.01"
                else if decide (key = "device") then "kitchen" else "") tt.

End example_more.

(** * Opening the device of the modem *)

Module plm_device.

(** What [ParseDevice] uses of a parsed URL. *)
Record URL : Type := mkURL {
  Scheme : string;
  Host : string;
  URL_String : string
}.

(** [serial.OpenOptions], with the fields [ParseDevice] sets. *)
Record OpenOptions : Type := mkOpenOptions {
  PortName : string;
  BaudRate : N;
  DataBits : N;
  StopBits : N;
  MinimumReadSize : N
}.

(** An attempt to open a device. *)
Inductive attempt : Type :=
| net_Dial (network address : string)
| serial_Open (options : OpenOptions).

(** How a call ends: it returns, or it panics on a nil pointer. *)
Inductive ending (A : Type) : Type :=
| Returned (a : A)
| NilPointerPanic.
Arguments Returned {A} a.
Arguments NilPointerPanic {A}.

Section ParseDevice.

(** The libraries: [url.Parse] ([None] when it returns an error, and with
    it a nil URL), and what dialling or opening the port gives. *)
Variable Device : Type.
Variable url_Parse : string -> option URL.
Variable Dial : string -> string -> result Device.
Variable Open : OpenOptions -> result Device.

(** [ParseDevice(device)], with the attempts it has made to open a
    device. The error of [url.Parse] is dropped, and the scheme is read from
    the URL it returned. *)
Definition ParseDevice (device : string)
  : ending (result Device) * list attempt :=
  match url_Parse device with
  | None => (NilPointerPanic, [])
  | Some url =>
      if decide (Scheme url = "tcp") then
        match Dial "tcp" (Host url) with
        | Err err =>
            (Returned
               (Err (errors_New
                       ("failed to connect to TCP device: " +:+ Error err))),
             [net_Dial "tcp" (Host url)])
        | Ok dev => (Returned (Ok dev), [net_Dial "tcp" (Host url)])
        end
      else if decide (Scheme url = "") then
        let options := mkOpenOptions (URL_String url) 19200 8 1 1 in
        match Open options with
        | Err err => (Returned (Err err), [serial_Open options])
        | Ok dev => (Returned (Ok dev), [serial_Open options])
        end
      else
        (Returned
           (Err (errors_New
                   ("unsupported scheme for device `" +:+ Scheme url +:+ "`"))),
         [])
  end.

End ParseDevice.

Arguments ParseDevice {Device} _ _ _ _.

End plm_device.
(** * Properties of the command methods *)

Section plm_facts.
Import plm.

(** ** Tokens are closed once *)

Lemma quiet_ret {A} (a : A) : quiet (ret a).
Proof. intros w; split; [done|]. exists []. by rewrite app_nil_r. Qed.

Lemma quiet_bind {A B} (c : M A) (k : A -> M B) :
  quiet c -> (forall a, quiet (k a)) -> quiet (bind c k).
Proof.
  intros Hc Hk w. unfold bind.
  destruct (Hc w) as [Hcr [ev [Hl Hev]]].
  destruct (c w) as [a w1]; simpl in *.
  destruct (Hk a w1) as [Hcr' [ev' [Hl' Hev']]].
  split; [congruence|].
  exists (ev ++ ev')%list. rewrite Hl', Hl, app_assoc. split; [done|].
  by apply Forall_app.
Qed.

Lemma quiet_MarshalRequest t req : quiet (MarshalRequest t req).
Proof.
  intros w; split; [done|]. exists [EvWrite t req].
  split; [done|]. by repeat constructor.
Qed.

Lemma quiet_UnmarshalResponse t k : quiet (UnmarshalResponse t k).
Proof.
  intros w; unfold UnmarshalResponse.
  destruct (read_one k (rd_script w)) as [r l'].
  split; [done|]. exists [EvRead t k]. split; [done|]. by repeat constructor.
Qed.

Lemma quiet_rounds_bound : quiet rounds_bound.
Proof. intros w; split; [done|]. exists []. by rewrite app_nil_r. Qed.

Ltac quiet_step :=
  first
    [ apply quiet_ret
    | apply quiet_MarshalRequest
    | match goal with
      | |- quiet (UnmarshalResponse ?t ?k) => exact (quiet_UnmarshalResponse t k)
      end
    | apply quiet_rounds_bound
    | apply quiet_bind; [| intros ?]
    | match goal with
      | |- quiet (match ?x with _ => _ end) => destruct x
      end ].

Lemma quiet_sendStandardMessage t i cb : quiet (sendStandardMessage t i cb).
Proof. unfold sendStandardMessage. repeat quiet_step. Qed.

Lemma quiet_sendExtendedMessage t i cb ud : quiet (sendExtendedMessage t i cb ud).
Proof. unfold sendExtendedMessage. repeat quiet_step. Qed.

Lemma quiet_GetAllLinkRecords_loop bound t records :
  quiet (GetAllLinkRecords_loop bound t records).
Proof.
  revert records. induction bound as [|bound IH]; intros records; simpl.
  - apply quiet_ret.
  - repeat quiet_step. apply IH.
Qed.

Lemma closes_of_quiet t ev :
  Forall (fun e => is_close e = false) ev -> closes_of t ev = 0%nat.
Proof.
  unfold closes_of. induction 1 as [|e ev He _ IH]; [done|].
  rewrite filter_cons.
  destruct (decide (e = EvClose t)) as [->|]; [done|]. exact IH.
Qed.

Lemma closes_of_app t l1 l2 :
  closes_of t (l1 ++ l2) = (closes_of t l1 + closes_of t l2)%nat.
Proof. unfold closes_of. by rewrite filter_app, length_app. Qed.

Lemma trace_intro {A} (c : M A) (w : world) (ev : list event) :
  log (c w).2 = (log w ++ ev)%list -> trace c w = ev.
Proof. unfold trace. intros ->. apply drop_app_length. Qed.

Lemma closes_of_create_close t mid :
  Forall (fun e => is_close e = false) mid ->
  closes_of t (EvCreate t :: (mid ++ [EvClose t])%list) = 1%nat.
Proof.
  intros Hmid.
  change (EvCreate t :: (mid ++ [EvClose t])%list)
    with ([EvCreate t] ++ mid ++ [EvClose t])%list.
  rewrite !closes_of_app, (closes_of_quiet _ mid Hmid).
  unfold closes_of. rewrite !filter_cons, !filter_nil.
  destruct (decide (EvCreate t = EvClose t)); [done|].
  by rewrite decide_True.
Qed.

Lemma with_token_releases_once {A} (failure : A -> option error)
    (ctx : Context) (onerr : error -> A) (body : token -> M A) :
  (forall e, failure (onerr e) = Some e) ->
  (forall t, quiet (body t)) ->
  releases_once failure ctx
    (let! r := Acquire ctx in
     match r with
     | Err err => ret (onerr err)
     | Ok device => defer (Close device) (body device)
     end).
Proof.
  intros Hf Hq w t.
  destruct ctx as [e|].
  - assert (Htr : trace (bind (Acquire (Some e))
                (fun r => match r with
                          | Err err => ret (onerr err)
                          | Ok device => defer (Close device) (body device)
                          end)) w = [EvCreate t; EvClose t]).
    { apply trace_intro. simpl. by rewrite <- app_assoc. }
    rewrite Htr. repeat split.
    + exists []. by split.
    + apply (closes_of_create_close t []). constructor.
    + apply Hf.
  - destruct (Hq t (createToken w).2) as [_ [ev [Hl Hev]]].
    assert (Htr : trace (bind (Acquire None)
                (fun r => match r with
                          | Err err => ret (onerr err)
                          | Ok device => defer (Close device) (body device)
                          end)) w = EvCreate t :: (ev ++ [EvClose t])%list).
    { apply trace_intro. unfold bind, Acquire, defer, bind, Close, emit, ret.
      simpl. fold t. simpl in Hl. fold t in Hl.
      destruct (body t _) as [a w1]. simpl in *. rewrite Hl.
      by rewrite <- !app_assoc. }
    rewrite Htr. repeat split.
    + by exists ev.
    + by apply closes_of_create_close.
Qed.

Ltac release_with onerr :=
  apply (with_token_releases_once _ _ onerr); [done|];
  intros ?; repeat quiet_step; try apply quiet_GetAllLinkRecords_loop.

(** C7. Every command method, once [Acquire] has created its token, closes
    that token exactly once, as the last thing it does, on every path; and
    when the context is done before the token is ready, the token is closed
    by [Acquire] and the method returns the error of the context. *)
Theorem command_methods_release_token_once
    (CommandBytesStatusRequest CommandBytesGetDeviceInfo
       CommandBytesSetDeviceInfo : CommandBytes)
    (DeviceInfo : Type) (deviceInfoFromUserData : UserData -> DeviceInfo)
    (LightState : Type) (commandBytes : LightState -> CommandBytes)
    (rampRateToByte : Duration -> byte)
    (onLevelToByte ledBrightnessToByte : float64 -> byte)
    (ctx : Context) (identity : Identity) (state : LightState)
    (rampRate : Duration) (level : float64) (x10HouseCode x10Unit : byte) :
  releases_once result_error ctx (GetInfo ctx) /\
  releases_once id ctx (SetLightState LightState commandBytes ctx identity state) /\
  releases_once id ctx (Beep ctx identity) /\
  releases_once result_error ctx
    (GetDeviceInfo CommandBytesGetDeviceInfo DeviceInfo deviceInfoFromUserData
       ctx identity) /\
  releases_once id ctx
    (SetDeviceRampRate CommandBytesSetDeviceInfo rampRateToByte ctx identity
       rampRate) /\
  releases_once id ctx
    (SetDeviceOnLevel CommandBytesSetDeviceInfo onLevelToByte ctx identity
       level) /\
  releases_once id ctx
    (SetDeviceLEDBrightness CommandBytesSetDeviceInfo ledBrightnessToByte ctx
       identity level) /\
  releases_once id ctx
    (SetDeviceX10Address CommandBytesSetDeviceInfo ctx identity x10HouseCode
       x10Unit) /\
  releases_once option_result_error ctx (GetAllLinkRecords ctx) /\
  releases_once result_error ctx
    (GetDeviceStatus CommandBytesStatusRequest ctx identity).
Proof.
  repeat match goal with |- _ /\ _ => split end.
  - release_with (@Err IMInfo).
  - release_with (@Some error).
  - release_with (@Some error).
  - release_with (@Err DeviceInfo).
  - release_with (@Some error).
  - release_with (@Some error).
  - release_with (@Some error).
  - release_with (@Some error).
  - release_with (fun e => Some (@Err AllLinkRecordList e)).
  - release_with (@Err float64).
Qed.

(** ** The enumeration of the all-link database *)

Lemma read_one_Ok_length k l r l' :
  read_one k l = (Ok r, l') -> length l' < length l.
Proof.
  induction l as [|i l IH]; simpl; [done|].
  destruct i as [f|k'|e].
  - destruct (Frame_as k f).
    + intros [= _ <-]. lia.
    + intros H. apply IH in H. lia.
  - destruct (decide (k' = k)); [done|]. intros H. apply IH in H. lia.
  - done.
Qed.

Lemma UnmarshalResponse_Ok_rd t k w r w' :
  UnmarshalResponse t k w = (Ok r, w') ->
  length (rd_script w') < length (rd_script w).
Proof.
  unfold UnmarshalResponse.
  destruct (read_one k (rd_script w)) as [r0 l'] eqn:E.
  intros [= -> <-]. simpl. by eapply read_one_Ok_length.
Qed.

Lemma MarshalRequest_rd t req w :
  rd_script (MarshalRequest t req w).2 = rd_script w.
Proof. done. Qed.

Lemma GetAllLinkRecords_loop_eq bound device records w :
  GetAllLinkRecords_loop (S bound) device records w =
  match UnmarshalResponse device KAllLinkRecord w with
  | (Err err, w1) => (Some (Err err), w1)
  | (Ok r, w1) =>
      match MarshalRequest device GetNextAllLinkRecordRequest w1 with
      | (Some err, w2) => (Some (Err err), w2)
      | (None, w2) =>
          match UnmarshalResponse device KGetNextAllLinkRecord w2 with
          | (Err err, w3) =>
              if decide (err = ErrCommandFailure)
              then (Some (Ok (records ++ [r])%list), w3)
              else (Some (Err err), w3)
          | (Ok _, w3) =>
              GetAllLinkRecords_loop bound device (records ++ [r])%list w3
          end
      end
  end.
Proof.
  cbn [GetAllLinkRecords_loop]. unfold bind.
  destruct (UnmarshalResponse device KAllLinkRecord w) as [[r|e] w1]; [|done].
  destruct (MarshalRequest device GetNextAllLinkRecordRequest w1) as [[e|] w2];
    [done|].
  destruct (UnmarshalResponse device KGetNextAllLinkRecord w2) as [[u|e] w3];
    [done|].
  by destruct (decide (e = ErrCommandFailure)).
Qed.

(** The bound [GetAllLinkRecords] gives its loop is never reached. *)
Lemma GetAllLinkRecords_loop_bound bound device records w :
  length (rd_script w) < bound ->
  (GetAllLinkRecords_loop bound device records w).1 <> None.
Proof.
  revert records w. induction bound as [|bound IH]; intros records w Hlen; [lia|].
  rewrite GetAllLinkRecords_loop_eq.
  destruct (UnmarshalResponse device KAllLinkRecord w) as [[r|e] w1] eqn:E1;
    [|done].
  destruct (MarshalRequest device GetNextAllLinkRecordRequest w1)
    as [[e|] w2] eqn:E2; [done|].
  destruct (UnmarshalResponse device KGetNextAllLinkRecord w2)
    as [[u|e] w3] eqn:E3.
  - apply IH.
    apply UnmarshalResponse_Ok_rd in E1, E3.
    assert (Hrd : rd_script w2 = rd_script w1)
      by (rewrite <- (MarshalRequest_rd device GetNextAllLinkRecordRequest w1);
          by rewrite E2).
    rewrite Hrd in E3. lia.
  - by destruct (decide (e = ErrCommandFailure)).
Qed.

Lemma GetAllLinkRecords_loop_enumerates device w records w' :
  enumerates device w records w' ->
  forall bound acc,
    length (rd_script w) < bound ->
    GetAllLinkRecords_loop bound device acc w
      = (Some (Ok (acc ++ records)%list), w').
Proof.
  induction 1 as [w w1 w2 w3 r E1 E2 E3 | w w1 w2 w3 w' r u records E1 E2 E3 _ IH];
    intros bound acc Hlen; (destruct bound as [|bound]; [lia|]);
    rewrite GetAllLinkRecords_loop_eq, E1, E2, E3.
  - done.
  - rewrite IH.
    + by rewrite <- app_assoc.
    + apply UnmarshalResponse_Ok_rd in E1, E3.
      assert (Hrd : rd_script w2 = rd_script w1)
        by (rewrite <- (MarshalRequest_rd device GetNextAllLinkRecordRequest w1);
            by rewrite E2).
      rewrite Hrd in E3. lia.
Qed.

Lemma GetAllLinkRecords_loop_Ok bound device acc w out w' :
  GetAllLinkRecords_loop bound device acc w = (Some (Ok out), w') ->
  exists records, enumerates device w records w' /\ out = (acc ++ records)%list.
Proof.
  revert acc w. induction bound as [|bound IH]; intros acc w; [done|].
  rewrite GetAllLinkRecords_loop_eq.
  destruct (UnmarshalResponse device KAllLinkRecord w) as [[r|e] w1] eqn:E1;
    [|done].
  destruct (MarshalRequest device GetNextAllLinkRecordRequest w1)
    as [[e|] w2] eqn:E2; [done|].
  destruct (UnmarshalResponse device KGetNextAllLinkRecord w2)
    as [[u|e] w3] eqn:E3.
  - intros H. apply IH in H as [records [Henum ->]].
    exists (r :: records). split.
    + by eapply enumerates_next.
    + by rewrite <- app_assoc.
  - destruct (decide (e = ErrCommandFailure)) as [->|]; [|done].
    intros [= <- <-]. exists [r]. split; [|done].
    by eapply enumerates_last.
Qed.

Lemma Identity_value_bounded i : (Identity_value i < 16777216)%N.
Proof.
  unfold Identity_value.
  pose proof (Byte.to_N_bounded (id0 i)).
  pose proof (Byte.to_N_bounded (id1 i)).
  pose proof (Byte.to_N_bounded (id2 i)).
  lia.
Qed.

Lemma AllLinkRecord_Less_key a b :
  AllLinkRecord_Less a b = (AllLinkRecord_key a <? AllLinkRecord_key b)%N.
Proof.
  unfold AllLinkRecord_Less, AllLinkRecord_key.
  pose proof (Identity_value_bounded (alr_ID a)).
  pose proof (Identity_value_bounded (alr_ID b)).
  repeat match goal with
         | |- context [(?x <? ?y)%N] => destruct (N.ltb_spec x y)
         end; try reflexivity; lia.
Qed.

Lemma AllLinkRecord_le_key a b :
  AllLinkRecord_le a b <-> (AllLinkRecord_key a <= AllLinkRecord_key b)%N.
Proof.
  unfold AllLinkRecord_le. rewrite AllLinkRecord_Less_key.
  rewrite N.ltb_ge. reflexivity.
Qed.

#[local] Instance AllLinkRecord_le_total : Total AllLinkRecord_le.
Proof. intros a b. rewrite !AllLinkRecord_le_key. lia. Qed.

#[local] Instance AllLinkRecord_le_trans : Transitive AllLinkRecord_le.
Proof. intros a b c. rewrite !AllLinkRecord_le_key. lia. Qed.

Lemma sort_Sort_sorted records :
  StronglySorted AllLinkRecord_le (sort_Sort records).
Proof. apply StronglySorted_merge_sort; apply _. Qed.

Lemma sort_Sort_Permutation records : Permutation (sort_Sort records) records.
Proof. apply merge_sort_Permutation. Qed.

Lemma GetAllLinkRecords_eq w :
  GetAllLinkRecords None w =
  let device := created w in
  let w0 := (Acquire None w).2 in
  match MarshalRequest device GetFirstAllLinkRecordRequest w0 with
  | (Some err, w1) => (Some (Err err), (Close device w1).2)
  | (None, w1) =>
      match UnmarshalResponse device KGetFirstAllLinkRecord w1 with
      | (Err err, w2) =>
          (if decide (err = ErrCommandFailure)
           then Some (Ok []) else Some (Err err),
           (Close device w2).2)
      | (Ok _, w2) =>
          match
            GetAllLinkRecords_loop (S (length (rd_script w2))) device [] w2
          with
          | (Some (Ok records), w3) =>
              (Some (Ok (sort_Sort records)), (Close device w3).2)
          | (other, w3) => (other, (Close device w3).2)
          end
      end
  end.
Proof.
  unfold GetAllLinkRecords, defer, bind, Acquire, bind, ret, rounds_bound.
  cbn [createToken fst snd].
  destruct (MarshalRequest _ _ _) as [[e|] w1]; [done|].
  destruct (UnmarshalResponse _ _ w1) as [[u|e] w2].
  - destruct (GetAllLinkRecords_loop _ _ _ w2) as [[[records|e]|] w3]; done.
  - by destruct (decide (e = ErrCommandFailure)).
Qed.

(** C1. [GetAllLinkRecords] always returns. Once the token is acquired and
    the first request written: a command failure in reply to it gives the
    empty set and no error; otherwise, when the rounds that follow read the
    records [records], the last of the requests for a next record being the
    one answered with a command failure, it returns those records sorted by
    [(group, id)]; and it returns a list of records in no other case. *)
Theorem GetAllLinkRecords_enumeration (w : world) :
  let device := created w in
  let w0 := (Acquire None w).2 in
  let w1 := (MarshalRequest device GetFirstAllLinkRecordRequest w0).2 in
  (MarshalRequest device GetFirstAllLinkRecordRequest w0).1 = None ->
  (GetAllLinkRecords None w).1 <> None /\
  (forall w2,
      UnmarshalResponse device KGetFirstAllLinkRecord w1
        = (Err ErrCommandFailure, w2) ->
      GetAllLinkRecords None w = (Some (Ok []), (Close device w2).2)) /\
  (forall u w2 records w3,
      UnmarshalResponse device KGetFirstAllLinkRecord w1 = (Ok u, w2) ->
      enumerates device w2 records w3 ->
      GetAllLinkRecords None w
        = (Some (Ok (sort_Sort records)), (Close device w3).2) /\
      StronglySorted AllLinkRecord_le (sort_Sort records) /\
      Permutation (sort_Sort records) records) /\
  (forall out w',
      GetAllLinkRecords None w = (Some (Ok out), w') ->
      (out = [] /\
       exists w2, UnmarshalResponse device KGetFirstAllLinkRecord w1
                    = (Err ErrCommandFailure, w2) /\
                  w' = (Close device w2).2) \/
      (exists u w2 records w3,
          UnmarshalResponse device KGetFirstAllLinkRecord w1 = (Ok u, w2) /\
          enumerates device w2 records w3 /\
          out = sort_Sort records /\ w' = (Close device w3).2)).
Proof.
  intros device w0 w1. subst w1. intros Hwrite.
  rewrite GetAllLinkRecords_eq. cbv zeta. fold device w0.
  destruct (MarshalRequest device GetFirstAllLinkRecordRequest w0)
    as [o w1'] eqn:E0.
  cbn [fst] in Hwrite. subst o. cbn [snd].
  repeat match goal with |- _ /\ _ => split end.
  - destruct (UnmarshalResponse device KGetFirstAllLinkRecord w1')
      as [[u|e] w2].
    + pose proof (GetAllLinkRecords_loop_bound (S (length (rd_script w2)))
                    device [] w2 (Nat.lt_succ_diag_r _)) as Hb.
      destruct (GetAllLinkRecords_loop _ _ _ w2) as [[[records|e]|] w3];
        [by cbn [fst] | by cbn [fst] | by destruct Hb].
    + by destruct (decide (e = ErrCommandFailure)); cbn [fst].
  - intros w2 ->. done.
  - intros u w2 records w3 -> Henum.
    rewrite (GetAllLinkRecords_loop_enumerates device w2 records w3 Henum
               _ [] (Nat.lt_succ_diag_r _)).
    cbn [app].
    auto using sort_Sort_sorted, sort_Sort_Permutation.
  - intros out w'.
    destruct (UnmarshalResponse device KGetFirstAllLinkRecord w1')
      as [[u|e] w2].
    + destruct (GetAllLinkRecords_loop _ _ _ w2) as [[[records|e]|] w3] eqn:El;
        try done.
      intros [= <- <-]. right.
      apply GetAllLinkRecords_loop_Ok in El as [records' [Henum ->]].
      by exists u, w2, records', w3.
    + destruct (decide (e = ErrCommandFailure)) as [->|]; [|done].
      intros [= <- <-]. left. split; [done|]. by exists w2.
Qed.

Lemma GetAllLinkRecords_enumeration_witness :
  (GetAllLinkRecords None modem_empty).1 = Some (Ok []) /\
  (GetAllLinkRecords None modem_two_records).1
    = Some (Ok [record_1; record_2]).
Proof.
  split.
  - destruct (GetAllLinkRecords_enumeration modem_empty eq_refl)
      as (_ & H & _).
    rewrite (H _ eq_refl). reflexivity.
  - destruct (GetAllLinkRecords_enumeration modem_two_records eq_refl)
      as (_ & _ & H & _).
    assert (Hrun : exists w',
               GetAllLinkRecords None modem_two_records
                 = (Some (Ok (sort_Sort [record_2; record_1])), w')).
    { eexists. eapply proj1, (H tt).
      - reflexivity.
      - eapply enumerates_next; [reflexivity..|].
        eapply enumerates_last; reflexivity. }
    destruct Hrun as [w' ->]. reflexivity.
Defined.

End plm_facts.

Section plm_messages.
Import plm.

(** ** What each primitive appends to the log *)

Lemma log_createToken w :
  log (createToken w).2 = (log w ++ [EvCreate (created w)])%list.
Proof. done. Qed.

Lemma log_MarshalRequest t req w :
  log (MarshalRequest t req w).2 = (log w ++ [EvWrite t req])%list.
Proof. done. Qed.

Lemma log_UnmarshalResponse t k w :
  log (UnmarshalResponse t k w).2 = (log w ++ [EvRead t k])%list.
Proof. unfold UnmarshalResponse. by destruct (read_one k (rd_script w)). Qed.

Lemma log_MarshalRequest_eq t req w o w' :
  MarshalRequest t req w = (o, w') -> log w' = (log w ++ [EvWrite t req])%list.
Proof. intros H. by rewrite <- (log_MarshalRequest t req w), H. Qed.

Lemma log_UnmarshalResponse_eq t k w r w' :
  UnmarshalResponse t k w = (r, w') -> log w' = (log w ++ [EvRead t k])%list.
Proof. intros H. by rewrite <- (log_UnmarshalResponse t k w), H. Qed.

Lemma log_Close t w : log (Close t w).2 = (log w ++ [EvClose t])%list.
Proof. done. Qed.

Lemma sendStandardMessage_eq device identity commandBytes w :
  sendStandardMessage device identity commandBytes w =
  match MarshalRequest device (standard_message identity commandBytes) w with
  | (Some err, w1) => (Err err, w1)
  | (None, w1) => UnmarshalResponse device KSendStandardOrExtendedMessage w1
  end.
Proof.
  unfold sendStandardMessage, bind, ret. fold (standard_message identity commandBytes).
  destruct (MarshalRequest _ _ w) as [[e|] w1]; [done|].
  by destruct (UnmarshalResponse _ _ w1) as [[r|e] w2].
Qed.

Lemma sendExtendedMessage_eq device identity commandBytes userData w :
  sendExtendedMessage device identity commandBytes userData w =
  match
    MarshalRequest device (extended_message identity commandBytes userData) w
  with
  | (Some err, w1) => (Err err, w1)
  | (None, w1) => UnmarshalResponse device KSendStandardOrExtendedMessage w1
  end.
Proof.
  unfold sendExtendedMessage, bind, ret.
  fold (extended_message identity commandBytes userData).
  destruct (MarshalRequest _ _ w) as [[e|] w1]; [done|].
  by destruct (UnmarshalResponse _ _ w1) as [[r|e] w2].
Qed.

Lemma send_only_run send w :
  send_only send w =
  let (r, w1) := send (created w) (createToken w).2 in
  (result_error r, (Close (created w) w1).2).
Proof.
  unfold send_only, Acquire, defer, bind, ret. cbn [createToken fst snd].
  destruct (send _ _) as [[r|e] w1]; done.
Qed.

Lemma send_only_writes request send w :
  (forall device w0,
      send device w0 =
      match MarshalRequest device request w0 with
      | (Some err, w1) => (Err err, w1)
      | (None, w1) => UnmarshalResponse device KSendStandardOrExtendedMessage w1
      end) ->
  let device := created w in
  let w0 := (Acquire None w).2 in
  let sent := MarshalRequest device request w0 in
  writes_of (trace (send_only send) w) = [request] /\
  (sent.1 = None ->
   trace (send_only send) w
     = [EvCreate device; EvWrite device request;
        EvRead device KSendStandardOrExtendedMessage; EvClose device] /\
   send_only send w
     = (result_error
          (UnmarshalResponse device KSendStandardOrExtendedMessage sent.2).1,
        (Close device
           (UnmarshalResponse device KSendStandardOrExtendedMessage sent.2).2).2)).
Proof.
  intros Hsend device w0 sent.
  assert (Hrun := send_only_run send w). rewrite Hsend in Hrun.
  change (createToken w).2 with w0 in Hrun. fold device in Hrun. fold sent in Hrun.
  assert (Hlog0 : log w0 = (log w ++ [EvCreate device])%list) by done.
  assert (Hlog1 : log sent.2 = (log w ++ [EvCreate device; EvWrite device request])%list).
  { unfold sent. rewrite log_MarshalRequest, Hlog0. by rewrite <- app_assoc. }
  destruct sent as [[e|] w1] eqn:Es; cbn [fst snd] in *.
  - split; [|done].
    erewrite trace_intro; [|rewrite Hrun; cbn [snd]; rewrite log_Close, Hlog1;
                            by rewrite <- app_assoc].
    done.
  - assert (Htr : trace (send_only send) w
              = [EvCreate device; EvWrite device request;
                 EvRead device KSendStandardOrExtendedMessage; EvClose device]).
    { apply trace_intro. rewrite Hrun.
      destruct (UnmarshalResponse device _ w1) as [r w2] eqn:Er. cbn [snd].
      rewrite log_Close.
      assert (log w2 = (log w1 ++ [EvRead device KSendStandardOrExtendedMessage])%list)
        as -> by (rewrite <- (log_UnmarshalResponse device _ w1); by rewrite Er).
      rewrite Hlog1. by rewrite <- !app_assoc. }
    rewrite Htr. split; [done|]. intros _. split; [done|].
    rewrite Hrun. by destruct (UnmarshalResponse device _ w1).
Qed.

(** C3, as the code has it. [Beep] writes one message to the target: the
    standard message of [sendStandardMessage] (flags 0, so the Extended bit
    is clear and the user data is left at its zero value) with the command
    bytes of a beep; when the write succeeds it then reads one
    [SendMsgResponse] and returns the error of that read, or none. *)
Theorem Beep_sends_standard_message (identity : Identity) (w : world) :
  let device := created w in
  let message :=
    mkSendRequest identity 2 3 x00 CommandBytesBeep UserData_zero in
  let w0 := (Acquire None w).2 in
  let sent := MarshalRequest device (SendMessageRequest message) w0 in
  has_Extended (req_Flags message) = false /\
  writes_of (trace (Beep None identity) w) = [SendMessageRequest message] /\
  (sent.1 = None ->
   trace (Beep None identity) w
     = [EvCreate device; EvWrite device (SendMessageRequest message);
        EvRead device KSendStandardOrExtendedMessage; EvClose device] /\
   Beep None identity w
     = (result_error
          (UnmarshalResponse device KSendStandardOrExtendedMessage sent.2).1,
        (Close device
           (UnmarshalResponse device KSendStandardOrExtendedMessage sent.2).2).2)).
Proof.
  intros device message w0 sent. split; [done|].
  exact (send_only_writes (SendMessageRequest message)
           (fun device => sendStandardMessage device identity CommandBytesBeep) w
           (fun device w0 =>
              sendStandardMessage_eq device identity CommandBytesBeep w0)).
Qed.

Lemma Beep_sends_standard_message_witness :
  (MarshalRequest 0
     (SendMessageRequest
        (mkSendRequest id_112233 2 3 x00 CommandBytesBeep UserData_zero))
     (Acquire None modem_beep).2).1 = None /\
  trace (Beep None id_112233) modem_beep
    = [EvCreate 0;
       EvWrite 0 (SendMessageRequest
                    (mkSendRequest id_112233 2 3 x00 CommandBytesBeep
                       UserData_zero));
       EvRead 0 KSendStandardOrExtendedMessage; EvClose 0] /\
  (Beep None id_112233 modem_beep).1 = None.
Proof.
  split; [reflexivity|].
  destruct (Beep_sends_standard_message id_112233 modem_beep)
    as (_ & _ & H).
  destruct (H eq_refl) as [Htr Hrun].
  split; [exact Htr|]. rewrite Hrun. reflexivity.
Defined.

(** C3, as it is stated, fails: the one message [Beep] writes does not
    have the Extended flag set. *)
Lemma Beep_extended_counterexample :
  ~ (exists message,
        writes_of (trace (Beep None id_112233) modem_beep)
          = [SendMessageRequest message] /\
        has_Extended (req_Flags message) = true).
Proof.
  intros [message [Hw He]].
  vm_compute in Hw. injection Hw as <-. discriminate He.
Qed.

Lemma byteToOnLevel_linear b :
  (byteToOnLevel b * 255 == inject_Z (Z.of_N (Byte.to_N b)))%Q /\
  (0 <= byteToOnLevel b)%Q /\ (byteToOnLevel b <= 1)%Q.
Proof.
  unfold byteToOnLevel. pose proof (Byte.to_N_bounded b).
  unfold Qeq, Qle, Qmult, inject_Z; cbn [Qnum Qden]. lia.
Qed.

Lemma GetDeviceStatus_eq CommandBytesStatusRequest identity w :
  GetDeviceStatus CommandBytesStatusRequest None identity w =
  let device := created w in
  match
    MarshalRequest device (standard_message identity CommandBytesStatusRequest)
      (Acquire None w).2
  with
  | (Some err, w1) => (Err err, (Close device w1).2)
  | (None, w1) =>
      match UnmarshalResponse device KSendStandardOrExtendedMessage w1 with
      | (Err err, w2) => (Err err, (Close device w2).2)
      | (Ok _, w2) =>
          match UnmarshalResponse device KStandardMessageReceived w2 with
          | (Err err, w3) => (Err err, (Close device w3).2)
          | (Ok ack, w3) =>
              (Ok (byteToOnLevel (cmd2 (smr_CommandBytes ack))),
               (Close device w3).2)
          end
      end
  end.
Proof.
  unfold GetDeviceStatus, defer, Acquire, bind, ret.
  cbn [createToken fst snd]. rewrite sendStandardMessage_eq.
  destruct (MarshalRequest _ _ _) as [[e|] w1]; [done|].
  destruct (UnmarshalResponse _ _ w1) as [[r|e] w2]; [|done].
  by destruct (UnmarshalResponse _ _ w2) as [[ack|e] w3].
Qed.

(** C5. [GetDeviceStatus] writes one standard message with the command
    bytes of a status request; when that write succeeds and the two reads
    that follow, of a [SendMsgResponse] and then of a
    [StandardMessageReceived], succeed, it has done nothing else before
    closing the token, and the level it returns is the second command byte
    of the message received, scaled from [0,255] to [0,1]. *)
Theorem GetDeviceStatus_level (CommandBytesStatusRequest : CommandBytes)
    (identity : Identity) (w w1 w2 w3 : world)
    (response : SendStandardOrExtendedMessageResponse)
    (ack : StandardMessageReceivedResponse) :
  let device := created w in
  let request := standard_message identity CommandBytesStatusRequest in
  let level := byteToOnLevel (cmd2 (smr_CommandBytes ack)) in
  MarshalRequest device request (Acquire None w).2 = (None, w1) ->
  UnmarshalResponse device KSendStandardOrExtendedMessage w1
    = (Ok response, w2) ->
  UnmarshalResponse device KStandardMessageReceived w2 = (Ok ack, w3) ->
  GetDeviceStatus CommandBytesStatusRequest None identity w
    = (Ok level, (Close device w3).2) /\
  trace (GetDeviceStatus CommandBytesStatusRequest None identity) w
    = [EvCreate device; EvWrite device request;
       EvRead device KSendStandardOrExtendedMessage;
       EvRead device KStandardMessageReceived; EvClose device] /\
  (level * 255 == inject_Z (Z.of_N (Byte.to_N (cmd2 (smr_CommandBytes ack)))))%Q /\
  (0 <= level)%Q /\ (level <= 1)%Q.
Proof.
  intros device request level Hw Hr1 Hr2.
  assert (Hrun : GetDeviceStatus CommandBytesStatusRequest None identity w
                 = (Ok level, (Close device w3).2)).
  { rewrite GetDeviceStatus_eq. cbv zeta. fold device request.
    by rewrite Hw, Hr1, Hr2. }
  split; [exact Hrun|]. split; [|apply byteToOnLevel_linear].
  apply trace_intro. rewrite Hrun. cbn [snd].
  rewrite log_Close, (log_UnmarshalResponse_eq _ _ _ _ _ Hr2),
    (log_UnmarshalResponse_eq _ _ _ _ _ Hr1), (log_MarshalRequest_eq _ _ _ _ _ Hw).
  change (log (Acquire None w).2) with (log w ++ [EvCreate device])%list.
  by rewrite <- !app_assoc.
Qed.

Lemma GetDeviceStatus_level_witness :
  (GetDeviceStatus CommandBytes_19_00 None id_112233 modem_status).1
    = Ok (255 # 255) /\
  reads_of (trace (GetDeviceStatus CommandBytes_19_00 None id_112233)
              modem_status)
    = [KSendStandardOrExtendedMessage; KStandardMessageReceived].
Proof.
  edestruct (GetDeviceStatus_level CommandBytes_19_00 id_112233 modem_status)
    as (Hrun & Htr & _); [reflexivity..|].
  rewrite Hrun, Htr. split; reflexivity.
Defined.

Lemma send_only_exchange request send w :
  (forall device w0,
      send device w0 =
      match MarshalRequest device request w0 with
      | (Some err, w1) => (Err err, w1)
      | (None, w1) => UnmarshalResponse device KSendStandardOrExtendedMessage w1
      end) ->
  one_exchange (send_only send) request w.
Proof.
  intros Hsend. destruct (send_only_writes request send w Hsend) as [Hw Ht].
  split; [exact Hw|]. intros H. by destruct (Ht H).
Qed.

(** C6. Each of the four setters writes one extended [SetDeviceInfo]
    message to the target, whose user data holds the selector of the field
    at index 1 ([05] ramp rate, [06] on level, [07] LED brightness, [04] X10
    address), the encoded value from index 2 on and zero everywhere else;
    when the write succeeds, it then reads one [SendMsgResponse]. *)
Theorem device_info_setters_send_one_message
    (CommandBytesSetDeviceInfo : CommandBytes)
    (rampRateToByte : Duration -> byte)
    (onLevelToByte ledBrightnessToByte : float64 -> byte)
    (identity : Identity) (rampRate : Duration) (level : float64)
    (x10HouseCode x10Unit : byte) (w : world) :
  let message userData :=
    SendMessageRequest
      (mkSendRequest identity 2 3 MessageFlagExtended
         CommandBytesSetDeviceInfo userData) in
  has_Extended MessageFlagExtended = true /\
  one_exchange
    (SetDeviceRampRate CommandBytesSetDeviceInfo rampRateToByte None identity
       rampRate)
    (message (x00 :: x05 :: rampRateToByte rampRate :: replicate 11 x00)) w /\
  one_exchange
    (SetDeviceOnLevel CommandBytesSetDeviceInfo onLevelToByte None identity
       level)
    (message (x00 :: x06 :: onLevelToByte level :: replicate 11 x00)) w /\
  one_exchange
    (SetDeviceLEDBrightness CommandBytesSetDeviceInfo ledBrightnessToByte None
       identity level)
    (message (x00 :: x07 :: ledBrightnessToByte level :: replicate 11 x00)) w /\
  one_exchange
    (SetDeviceX10Address CommandBytesSetDeviceInfo None identity x10HouseCode
       x10Unit)
    (message (x00 :: x04 :: x10HouseCode :: x10Unit :: replicate 10 x00)) w.
Proof.
  intros message. split; [done|].
  repeat match goal with |- _ /\ _ => split end.
  - exact (send_only_exchange _
             (fun device => sendExtendedMessage device identity
                              CommandBytesSetDeviceInfo _) w
             (fun device w0 => sendExtendedMessage_eq device identity _ _ w0)).
  - exact (send_only_exchange _
             (fun device => sendExtendedMessage device identity
                              CommandBytesSetDeviceInfo _) w
             (fun device w0 => sendExtendedMessage_eq device identity _ _ w0)).
  - exact (send_only_exchange _
             (fun device => sendExtendedMessage device identity
                              CommandBytesSetDeviceInfo _) w
             (fun device w0 => sendExtendedMessage_eq device identity _ _ w0)).
  - exact (send_only_exchange _
             (fun device => sendExtendedMessage device identity
                              CommandBytesSetDeviceInfo _) w
             (fun device w0 => sendExtendedMessage_eq device identity _ _ w0)).
Qed.

Lemma device_info_setters_send_one_message_witness :
  let message userData :=
    SendMessageRequest
      (mkSendRequest id_112233 2 3 x10 CommandBytes_2e_00 userData) in
  let w :=
    modem_ack
      (mkSendRequest id_112233 2 3 x10 CommandBytes_2e_00 UserData_zero) in
  reads_of (trace (SetDeviceRampRate CommandBytes_2e_00 (fun _ => x1c) None
                     id_112233 500000000%Z) w)
    = [KSendStandardOrExtendedMessage] /\
  writes_of (trace (SetDeviceX10Address CommandBytes_2e_00 None id_112233
                      x60 x0c) w)
    = [message [x00; x04; x60; x0c; x00; x00; x00; x00; x00; x00; x00; x00;
                x00; x00]].
Proof.
  intros message w.
  destruct (device_info_setters_send_one_message CommandBytes_2e_00
              (fun _ => x1c) (fun _ => xff) (fun _ => x7f) id_112233
              500000000%Z 1%Q x60 x0c w)
    as (_ & [_ Hramp] & _ & _ & [Hx10 _]).
  split.
  - rewrite (Hramp eq_refl). reflexivity.
  - exact Hx10.
Defined.

(** C2 fails on the code. [GetDeviceInfo] drops the error of
    [sendExtendedMessage]: when writing the request fails, or when the
    [SendMsgResponse] is a nak, and the two frames that follow can be read,
    it reads them and returns the device info and no error, where
    [GetDeviceStatus] returns the error of the send. *)
Theorem GetDeviceInfo_ignores_send_error
    (CommandBytesGetDeviceInfo CommandBytesStatusRequest : CommandBytes)
    (DeviceInfo : Type) (deviceInfoFromUserData : UserData -> DeviceInfo)
    (identity : Identity) (e : error)
    (ack : StandardMessageReceivedResponse)
    (response : ExtendedMessageReceivedResponse) :
  let replies := [InFrame (StandardMessageReceived ack);
                  InFrame (ExtendedMessageReceived response)] in
  let write_fails := fresh [Some e] replies in
  let send_nak := fresh [] (InNak KSendStandardOrExtendedMessage :: replies) in
  let GetDeviceInfo :=
    GetDeviceInfo CommandBytesGetDeviceInfo DeviceInfo deviceInfoFromUserData
      None identity in
  let GetDeviceStatus :=
    GetDeviceStatus CommandBytesStatusRequest None identity in
  (sendExtendedMessage 0 identity CommandBytesGetDeviceInfo UserData_zero
     (Acquire None write_fails).2).1 = Err e /\
  (GetDeviceInfo write_fails).1
    = Ok (deviceInfoFromUserData (emr_UserData response)) /\
  reads_of (trace GetDeviceInfo write_fails)
    = [KStandardMessageReceived; KExtendedMessageReceived] /\
  (GetDeviceStatus write_fails).1 = Err e /\
  (sendExtendedMessage 0 identity CommandBytesGetDeviceInfo UserData_zero
     (Acquire None send_nak).2).1 = Err ErrCommandFailure /\
  (GetDeviceInfo send_nak).1
    = Ok (deviceInfoFromUserData (emr_UserData response)) /\
  (GetDeviceStatus send_nak).1 = Err ErrCommandFailure.
Proof. repeat split. Qed.

End plm_messages.

(** * Properties of the web service *)

Section insteon_facts.
Import insteon.

Variable ID : Type.
Variable LightState : Type.
Variable DeviceInfo : Type.
Variable Context : Type.
Variable Modem : Type.
Variable impl : PowerLineModem ID LightState DeviceInfo Context Modem.
Variable ParseID : string -> result ID.
Variable LookupDevice : string -> result (ConfigurationDevice ID).
Variable consumeMediaParams : string -> option error.
Variable Decode_LightState : string -> result LightState.
Variable Encode_LightState : LightState -> string.
Variable Decode_DeviceInfo : string -> result DeviceInfo.
Variable Encode_DeviceInfo : DeviceInfo -> string.

Local Abbreviation Request := (Request Context).
Local Abbreviation WebService := (WebService ID LightState DeviceInfo Modem).

Lemma parseID_new (r : Request) :
  match parseID ParseID ResponseWriter_new r with
  | (Some _, w) => w = ResponseWriter_new
  | (None, w) => status w = Some StatusNotFound
  end.
Proof.
  unfold parseID. destruct (decide (Vars r "id" = "")); [done|].
  by destruct (ParseID (Vars r "id")).
Qed.

Lemma parseDevice_new (r : Request) :
  match parseDevice LookupDevice ResponseWriter_new r with
  | (Some device, w) =>
      w = ResponseWriter_new /\ LookupDevice (Vars r "device") = Ok device
  | (None, w) => status w = Some StatusNotFound
  end.
Proof.
  unfold parseDevice. destruct (decide (Vars r "device" = "")); [done|].
  by destruct (LookupDevice (Vars r "device")).
Qed.

(** A media type that [mime.ParseMediaType] returns with no error is not
    empty. *)
Lemma ParseMediaType_no_error v mediatype :
  mime.ParseMediaType consumeMediaParams v = (mediatype, None) ->
  mediatype <> "".
Proof.
  unfold mime.ParseMediaType.
  destruct (mime.cut_params v) as [base rest].
  destruct (mime.checkMediaTypeDisposition _) as [e|] eqn:Hc; [done|].
  intros H Hm.
  assert (mediatype = mime.TrimSpace (mime.ToLower base)) as Heq.
  { destruct (decide (rest = "")); [congruence|].
    destruct (consumeMediaParams rest); congruence. }
  rewrite <- Heq, Hm in Hc. discriminate Hc.
Qed.

Lemma decodeValue_new {V} (Decode : string -> result V) (r : Request) :
  match decodeValue consumeMediaParams Decode ResponseWriter_new r with
  | (Some value, w) =>
      w = ResponseWriter_new /\
      (mime.ParseMediaType consumeMediaParams (Content_Type r)).1
        = "application/json" /\
      exists data, Body r = Some data /\ Decode data = Ok value
  | (None, w) => status w = Some StatusBadRequest
  end.
Proof.
  unfold decodeValue. destruct (Body r) as [data|]; [|done].
  destruct (mime.ParseMediaType _ _) as [mediatype [e|]] eqn:Hp; [done|].
  apply ParseMediaType_no_error in Hp.
  rewrite (bool_decide_eq_false_2 _ Hp). cbn [orb].
  destruct (bool_decide_reflect (mediatype = "application/json")) as [Hj|Hj];
    [|done].
  destruct (Decode data) as [value|err] eqn:Hd; [|done].
  split; [done|]. split; [done|]. by exists data.
Qed.

(** C8 fails on the code. A request with a body and a missing or empty
    [Content-Type] is answered with status 400 and the error of
    [mime.ParseMediaType], and its body is not decoded; whatever the header,
    the media type that reaches the [switch] is never the empty one. *)
Theorem decodeValue_rejects_empty_Content_Type (V : Type)
    (Decode : string -> result V) (data : string) (vars : string -> string)
    (ctx : Context) :
  decodeValue consumeMediaParams Decode ResponseWriter_new
    (mkRequest (Some data) "" vars ctx)
  = (None, mkResponseWriter (Some StatusBadRequest) None "mime: no media type")
  /\
  forall v,
    match mime.ParseMediaType consumeMediaParams v with
    | (mediatype, None) => mediatype <> ""
    | (_, Some _) => True
    end.
Proof.
  split; [reflexivity|]. intros v.
  destruct (mime.ParseMediaType consumeMediaParams v) as [mediatype [e|]] eqn:Hp;
    [done|].
  by eapply ParseMediaType_no_error.
Qed.

Lemma calls_range_SetDeviceState ctx ids state (s : WebService) :
  calls (range_SetDeviceState ID LightState DeviceInfo Context Modem impl
           ctx ids state s)
  = (calls s ++ map (fun id => CallSetDeviceState id state) ids)%list.
Proof.
  revert s. induction ids as [|id ids IH]; intros s; cbn [range_SetDeviceState map].
  - by rewrite app_nil_r.
  - unfold PowerLineModem_SetDeviceState.
    destruct (SetDeviceState impl ctx id state (modem s)) as [o m].
    rewrite IH. cbn [calls]. by rewrite <- app_assoc.
Qed.

Lemma calls_range_SetDeviceInfo ctx ids deviceInfo (s : WebService) :
  calls (range_SetDeviceInfo ID LightState DeviceInfo Context Modem impl
           ctx ids deviceInfo s)
  = (calls s ++ map (fun id => CallSetDeviceInfo id deviceInfo) ids)%list.
Proof.
  revert s. induction ids as [|id ids IH]; intros s; cbn [range_SetDeviceInfo map].
  - by rewrite app_nil_r.
  - unfold PowerLineModem_SetDeviceInfo.
    destruct (SetDeviceInfo impl ctx id deviceInfo (modem s)) as [o m].
    rewrite IH. cbn [calls]. by rewrite <- app_assoc.
Qed.

(** C9. A PUT to an alias route whose alias resolves to [device] and whose
    body decodes to a value: the value is applied to the primary identity
    first. When that fails, the error is the answer (status 500) and no
    other call is made. Otherwise the value is applied to each slave
    identity in the order of the configuration, whatever these calls return,
    and the answer is the success (status 200). *)
Theorem alias_put_primary_then_slaves (r : Request) (s : WebService)
    (device : ConfigurationDevice ID) (state : LightState)
    (deviceInfo : DeviceInfo) :
  parseDevice LookupDevice ResponseWriter_new r
    = (Some device, ResponseWriter_new) ->
  decodeValue consumeMediaParams Decode_LightState ResponseWriter_new r
    = (Some state, ResponseWriter_new) ->
  decodeValue consumeMediaParams Decode_DeviceInfo ResponseWriter_new r
    = (Some deviceInfo, ResponseWriter_new) ->
  let ctx := req_Context r in
  (let (w', s') :=
     handleAPISetDeviceState impl LookupDevice consumeMediaParams
       Decode_LightState Encode_LightState ResponseWriter_new r s in
   match (SetDeviceState impl ctx (dev_ID device) state (modem s)).1 with
   | Some err =>
       calls s' = (calls s ++ [CallSetDeviceState (dev_ID device) state])%list /\
       status w' = Some StatusInternalServerError /\ body w' = Error err
   | None =>
       calls s' = (calls s ++
                   CallSetDeviceState (dev_ID device) state ::
                   map (fun id => CallSetDeviceState id state)
                       (SlaveDeviceIDs device))%list /\
       status w' = Some StatusOK /\ body w' = Encode_LightState state
   end) /\
  (let (w', s') :=
     handleAPISetDeviceInfo impl LookupDevice consumeMediaParams
       Decode_DeviceInfo Encode_DeviceInfo ResponseWriter_new r s in
   match (SetDeviceInfo impl ctx (dev_ID device) deviceInfo (modem s)).1 with
   | Some err =>
       calls s' = (calls s ++ [CallSetDeviceInfo (dev_ID device) deviceInfo])%list /\
       status w' = Some StatusInternalServerError /\ body w' = Error err
   | None =>
       calls s' = (calls s ++
                   CallSetDeviceInfo (dev_ID device) deviceInfo ::
                   map (fun id => CallSetDeviceInfo id deviceInfo)
                       (SlaveDeviceIDs device))%list /\
       status w' = Some StatusOK /\ body w' = Encode_DeviceInfo deviceInfo
   end).
Proof.
  intros Hdev Hstate Hinfo ctx. split.
  - unfold handleAPISetDeviceState. rewrite Hdev, Hstate.
    unfold PowerLineModem_SetDeviceState. fold ctx.
    destruct (SetDeviceState impl ctx (dev_ID device) state (modem s))
      as [[err|] m]; cbn [fst].
    + done.
    + rewrite calls_range_SetDeviceState. cbn [calls].
      by rewrite <- app_assoc.
  - unfold handleAPISetDeviceInfo. rewrite Hdev, Hinfo.
    unfold PowerLineModem_SetDeviceInfo. fold ctx.
    destruct (SetDeviceInfo impl ctx (dev_ID device) deviceInfo (modem s))
      as [[err|] m]; cbn [fst].
    + done.
    + rewrite calls_range_SetDeviceInfo. cbn [calls].
      by rewrite <- app_assoc.
Qed.

Lemma handleValue_new {V} (Encode : V -> string) (r : Request) (value : V) :
  handleValue Encode ResponseWriter_new r value
  = mkResponseWriter (Some StatusOK) (Some "application/json") (Encode value).
Proof. reflexivity. Qed.

Lemma handleError_new (r : Request) (err : error) :
  handleError ResponseWriter_new r err
  = mkResponseWriter (Some StatusInternalServerError) None (Error err).
Proof. reflexivity. Qed.

Ltac status_mismatch H :=
  let Hs := fresh "Hs" in
  intros Hs; cbn [fst] in Hs; unfold insteon_more.status_sent in Hs;
  rewrite H in Hs; vm_compute in Hs; discriminate Hs.

Ltac put_succeeds :=
  let Hp := fresh "Hp" in
  let Hv := fresh "Hv" in
  let He := fresh "He" in
  intros ? ? Hp Hv He; cbn [fst fmap option_fmap option_map] in Hp, Hv, He;
  first [ discriminate Hp | discriminate Hv | discriminate He
        | by injection Hv as <- ].

(** C10. A PUT of a device state or of a device info, on a [/plm] route or
    on an alias route. When the answer sent has status 200, be it written
    or the status of an answer left empty, it is a written 200 of type
    [application/json] whose body is the JSON encoding of the value decoded
    from the body of the request, and the only calls made to the modem are
    the ones that set that value: none reads it back. And the answer is that
    one whenever the route resolves, the body is decoded and the modem
    accepts the value for the primary identity. *)
Theorem put_answers_with_decoded_value (r : Request) (s : WebService) :
  let echoes {V} (Encode : V -> string) (value : V) (w : ResponseWriter) :=
    w = mkResponseWriter (Some StatusOK) (Some "application/json")
          (Encode value) in
  let answers {V} (primary : option ID) (Decode : string -> result V)
        (Encode : V -> string)
        (Set_ : ID -> V -> Call ID LightState DeviceInfo)
        (set : Context -> ID -> V -> Modem -> option error * Modem)
        (out : ResponseWriter * WebService) :=
    (insteon_more.status_sent out.1 = StatusOK ->
     exists data value,
       Body r = Some data /\ Decode data = Ok value /\
       echoes Encode value out.1 /\
       exists ids,
         calls out.2 = (calls s ++ map (fun id => Set_ id value) ids)%list) /\
    (forall id value,
       primary = Some id ->
       (decodeValue consumeMediaParams Decode ResponseWriter_new r).1
       = Some value ->
       (set (req_Context r) id value (modem s)).1 = None ->
       echoes Encode value out.1) in
  answers (parseID ParseID ResponseWriter_new r).1
    Decode_LightState Encode_LightState CallSetDeviceState
    (SetDeviceState impl)
    (handleSetDeviceState impl ParseID consumeMediaParams Decode_LightState
       Encode_LightState ResponseWriter_new r s) /\
  answers (parseID ParseID ResponseWriter_new r).1
    Decode_DeviceInfo Encode_DeviceInfo CallSetDeviceInfo
    (SetDeviceInfo impl)
    (handleSetDeviceInfo impl ParseID consumeMediaParams Decode_DeviceInfo
       Encode_DeviceInfo ResponseWriter_new r s) /\
  answers (dev_ID <$> (parseDevice LookupDevice ResponseWriter_new r).1)
    Decode_LightState Encode_LightState CallSetDeviceState
    (SetDeviceState impl)
    (handleAPISetDeviceState impl LookupDevice consumeMediaParams
       Decode_LightState Encode_LightState ResponseWriter_new r s) /\
  answers (dev_ID <$> (parseDevice LookupDevice ResponseWriter_new r).1)
    Decode_DeviceInfo Encode_DeviceInfo CallSetDeviceInfo
    (SetDeviceInfo impl)
    (handleAPISetDeviceInfo impl LookupDevice consumeMediaParams
       Decode_DeviceInfo Encode_DeviceInfo ResponseWriter_new r s).
Proof.
  intros echoes answers. subst echoes answers. cbv beta.
  repeat match goal with |- _ /\ _ => split end.
  - unfold handleSetDeviceState.
    pose proof (parseID_new r) as Hid.
    destruct (parseID ParseID ResponseWriter_new r) as [[id|] w1];
      [subst w1 | status_mismatch Hid].
    pose proof (decodeValue_new Decode_LightState r) as Hdec.
    destruct (decodeValue _ Decode_LightState _ r) as [[state|] w2];
      [destruct Hdec as (-> & _ & data & Hbody & Hdata)
      | status_mismatch Hdec].
    unfold PowerLineModem_SetDeviceState.
    destruct (SetDeviceState impl _ id state (modem s)) as [[err|] m];
      [intros Hs; vm_compute in Hs; discriminate Hs|]. intros _.
    exists data, state. repeat split; try done. by exists [id].
  - unfold handleSetDeviceState.
    destruct (parseID ParseID ResponseWriter_new r) as [[id|] w1] eqn:Eid;
      [|put_succeeds].
    pose proof (parseID_new r) as Hid. rewrite Eid in Hid. subst w1.
    pose proof (decodeValue_new Decode_LightState r) as Hdec.
    destruct (decodeValue _ Decode_LightState _ r) as [[state|] w2];
      [destruct Hdec as (-> & _) | put_succeeds].
    unfold PowerLineModem_SetDeviceState.
    intros id' value Hp Hv He. cbn [fst] in Hp, Hv.
    injection Hp as <-. injection Hv as <-.
    destruct (SetDeviceState impl _ id state (modem s)) as [[err|] m];
      [discriminate He | reflexivity].
  - unfold handleSetDeviceInfo.
    pose proof (parseID_new r) as Hid.
    destruct (parseID ParseID ResponseWriter_new r) as [[id|] w1];
      [subst w1 | status_mismatch Hid].
    pose proof (decodeValue_new Decode_DeviceInfo r) as Hdec.
    destruct (decodeValue _ Decode_DeviceInfo _ r) as [[deviceInfo|] w2];
      [destruct Hdec as (-> & _ & data & Hbody & Hdata)
      | status_mismatch Hdec].
    unfold PowerLineModem_SetDeviceInfo.
    destruct (SetDeviceInfo impl _ id deviceInfo (modem s)) as [[err|] m];
      [intros Hs; vm_compute in Hs; discriminate Hs|]. intros _.
    exists data, deviceInfo. repeat split; try done. by exists [id].
  - unfold handleSetDeviceInfo.
    destruct (parseID ParseID ResponseWriter_new r) as [[id|] w1] eqn:Eid;
      [|put_succeeds].
    pose proof (parseID_new r) as Hid. rewrite Eid in Hid. subst w1.
    pose proof (decodeValue_new Decode_DeviceInfo r) as Hdec.
    destruct (decodeValue _ Decode_DeviceInfo _ r) as [[deviceInfo|] w2];
      [destruct Hdec as (-> & _) | put_succeeds].
    unfold PowerLineModem_SetDeviceInfo.
    intros id' value Hp Hv He. cbn [fst] in Hp, Hv.
    injection Hp as <-. injection Hv as <-.
    destruct (SetDeviceInfo impl _ id deviceInfo (modem s)) as [[err|] m];
      [discriminate He | reflexivity].
  - unfold handleAPISetDeviceState.
    pose proof (parseDevice_new r) as Hdev.
    destruct (parseDevice LookupDevice ResponseWriter_new r)
      as [[device|] w1];
      [destruct Hdev as [-> _] | status_mismatch Hdev].
    pose proof (decodeValue_new Decode_LightState r) as Hdec.
    destruct (decodeValue _ Decode_LightState _ r) as [[state|] w2];
      [destruct Hdec as (-> & _ & data & Hbody & Hdata)
      | status_mismatch Hdec].
    unfold PowerLineModem_SetDeviceState.
    destruct (SetDeviceState impl _ (dev_ID device) state (modem s))
      as [[err|] m]; [intros Hs; vm_compute in Hs; discriminate Hs|]. intros _.
    exists data, state. repeat split; try done.
    exists (dev_ID device :: SlaveDeviceIDs device). cbn [snd].
    rewrite calls_range_SetDeviceState. cbn [calls map].
    by rewrite <- app_assoc.
  - unfold handleAPISetDeviceState.
    destruct (parseDevice LookupDevice ResponseWriter_new r)
      as [[device|] w1] eqn:Edev; [|put_succeeds].
    pose proof (parseDevice_new r) as Hdev. rewrite Edev in Hdev.
    destruct Hdev as [-> _].
    pose proof (decodeValue_new Decode_LightState r) as Hdec.
    destruct (decodeValue _ Decode_LightState _ r) as [[state|] w2];
      [destruct Hdec as (-> & _) | put_succeeds].
    unfold PowerLineModem_SetDeviceState.
    intros id' value Hp Hv He. cbn [fst fmap option_fmap option_map] in Hp, Hv.
    injection Hp as <-. injection Hv as <-.
    destruct (SetDeviceState impl _ (dev_ID device) state (modem s))
      as [[err|] m]; [discriminate He | reflexivity].
  - unfold handleAPISetDeviceInfo.
    pose proof (parseDevice_new r) as Hdev.
    destruct (parseDevice LookupDevice ResponseWriter_new r)
      as [[device|] w1];
      [destruct Hdev as [-> _] | status_mismatch Hdev].
    pose proof (decodeValue_new Decode_DeviceInfo r) as Hdec.
    destruct (decodeValue _ Decode_DeviceInfo _ r) as [[deviceInfo|] w2];
      [destruct Hdec as (-> & _ & data & Hbody & Hdata)
      | status_mismatch Hdec].
    unfold PowerLineModem_SetDeviceInfo.
    destruct (SetDeviceInfo impl _ (dev_ID device) deviceInfo (modem s))
      as [[err|] m]; [intros Hs; vm_compute in Hs; discriminate Hs|]. intros _.
    exists data, deviceInfo. repeat split; try done.
    exists (dev_ID device :: SlaveDeviceIDs device). cbn [snd].
    rewrite calls_range_SetDeviceInfo. cbn [calls map].
    by rewrite <- app_assoc.
  - unfold handleAPISetDeviceInfo.
    destruct (parseDevice LookupDevice ResponseWriter_new r)
      as [[device|] w1] eqn:Edev; [|put_succeeds].
    pose proof (parseDevice_new r) as Hdev. rewrite Edev in Hdev.
    destruct Hdev as [-> _].
    pose proof (decodeValue_new Decode_DeviceInfo r) as Hdec.
    destruct (decodeValue _ Decode_DeviceInfo _ r) as [[deviceInfo|] w2];
      [destruct Hdec as (-> & _) | put_succeeds].
    unfold PowerLineModem_SetDeviceInfo.
    intros id' value Hp Hv He. cbn [fst fmap option_fmap option_map] in Hp, Hv.
    injection Hp as <-. injection Hv as <-.
    destruct (SetDeviceInfo impl _ (dev_ID device) deviceInfo (modem s))
      as [[err|] m]; [discriminate He | reflexivity].
Qed.

End insteon_facts.
Section insteon_witnesses.
Import insteon.

Lemma alias_put_primary_then_slaves_witness :
  let out :=
    handleAPISetDeviceState example.impl example.LookupDevice
      example.no_params_error example.Decode example.Encode
      ResponseWriter_new example.request example.service in
  calls out.2
    = [CallSetDeviceState 1%nat 255%nat; CallSetDeviceState 2%nat 255%nat;
       CallSetDeviceState 3%nat 255%nat] /\
  modem out.2 = [1%nat; 2%nat; 3%nat] /\
  status out.1 = Some StatusOK.
Proof.
  intros out.
  destruct (alias_put_primary_then_slaves nat nat nat unit (list nat)
              example.impl example.LookupDevice example.no_params_error
              example.Decode example.Encode example.Decode example.Encode
              example.request example.service
              (mkConfigurationDevice 1%nat [2%nat; 3%nat]) 255%nat 255%nat
              eq_refl eq_refl eq_refl) as [H _].
  fold out in H. destruct out as [w' s'] eqn:E.
  cbn in H. destruct H as (Hc & Hs & _).
  repeat split; [exact Hc | | exact Hs].
  apply (f_equal snd) in E. cbn [snd] in E. rewrite <- E. reflexivity.
Defined.

Lemma put_answers_with_decoded_value_witness :
  let sent := mkResponseWriter (Some StatusOK) (Some "application/json")
                (example.Encode 255%nat) in
  (handleSetDeviceState example.impl example.ParseID example.no_params_error
     example.Decode example.Encode ResponseWriter_new example.request
     example.service).1 = sent /\
  (handleSetDeviceInfo example.impl example.ParseID example.no_params_error
     example.Decode example.Encode ResponseWriter_new example.request
     example.service).1 = sent /\
  (handleAPISetDeviceState example.impl example.LookupDevice
     example.no_params_error example.Decode example.Encode
     ResponseWriter_new example.request example.service).1 = sent /\
  (handleAPISetDeviceInfo example.impl example.LookupDevice
     example.no_params_error example.Decode example.Encode
     ResponseWriter_new example.request example.service).1 = sent.
Proof.
  intros sent.
  destruct (put_answers_with_decoded_value nat nat nat unit (list nat)
              example.impl example.ParseID example.LookupDevice
              example.no_params_error example.Decode example.Encode
              example.Decode example.Encode example.request example.service)
    as ((B1 & _) & (B2 & _) & (_ & F3) & (_ & F4)).
  split; [|split; [|split]].
  - destruct (B1 eq_refl) as (data & value & Hbody & Hdata & Hout & _).
    injection Hbody as <-. injection Hdata as <-. exact Hout.
  - destruct (B2 eq_refl) as (data & value & Hbody & Hdata & Hout & _).
    injection Hbody as <-. injection Hdata as <-. exact Hout.
  - exact (F3 1%nat 255%nat eq_refl eq_refl eq_refl).
  - exact (F4 1%nat 255%nat eq_refl eq_refl eq_refl).
Defined.

End insteon_witnesses.

(** * More properties of the command methods *)

Section plm_more_facts.
Import plm plm_more.

Lemma Acquire_None_log w :
  log (Acquire None w).2 = (log w ++ [EvCreate (created w)])%list.
Proof. done. Qed.

Lemma GetInfo_eq w :
  GetInfo None w =
  let device := created w in
  match MarshalRequest device GetIMInfoRequest (Acquire None w).2 with
  | (Some err, w1) => (Err err, (Close device w1).2)
  | (None, w1) =>
      let (r, w2) := UnmarshalResponse device KGetIMInfo w1 in
      (r, (Close device w2).2)
  end.
Proof.
  unfold GetInfo, defer, Acquire, bind, ret. cbn [createToken fst snd].
  destruct (MarshalRequest _ _ _) as [[e|] w1]; [done|].
  by destruct (UnmarshalResponse _ _ w1) as [[r|e] w2].
Qed.

(** The trace of a run that wrote [request] and then did [evs]. *)
Lemma trace_after_write {A} (c : M A) w request o w1 a w' evs :
  MarshalRequest (created w) request (Acquire None w).2 = (o, w1) ->
  c w = (a, w') ->
  log w' = (log w1 ++ evs)%list ->
  trace c w = EvCreate (created w) :: EvWrite (created w) request :: evs.
Proof.
  intros Hw Hc Hl. apply trace_intro. rewrite Hc. cbn [snd].
  rewrite Hl, (log_MarshalRequest_eq _ _ _ _ _ Hw), Acquire_None_log.
  by rewrite <- !app_assoc.
Qed.

Lemma send_only_stops_at_write request send w :
  (forall device w0,
      send device w0 =
      match MarshalRequest device request w0 with
      | (Some err, w1) => (Err err, w1)
      | (None, w1) => UnmarshalResponse device KSendStandardOrExtendedMessage w1
      end) ->
  stops_at_write id (send_only send) request w.
Proof.
  intros Hsend. unfold stops_at_write. intros e Hw.
  set (device := created w) in *.
  assert (Hrun := send_only_run send w). rewrite Hsend in Hrun.
  change (createToken w).2 with (Acquire None w).2 in Hrun. fold device in Hrun.
  destruct (MarshalRequest device request (Acquire None w).2) as [o w1] eqn:E.
  cbn [fst] in Hw. subst o.
  split; [by rewrite Hrun|].
  eapply trace_after_write; [exact E | exact Hrun |]. by rewrite log_Close.
Qed.

Lemma send_only_stops_at_reply request send w :
  (forall device w0,
      send device w0 =
      match MarshalRequest device request w0 with
      | (Some err, w1) => (Err err, w1)
      | (None, w1) => UnmarshalResponse device KSendStandardOrExtendedMessage w1
      end) ->
  stops_at_reply id (send_only send) request KSendStandardOrExtendedMessage w.
Proof.
  intros Hsend. unfold stops_at_reply. intros w1 e w2 Hw Hr.
  set (device := created w) in *.
  assert (Hrun := send_only_run send w). rewrite Hsend in Hrun.
  change (createToken w).2 with (Acquire None w).2 in Hrun. fold device in Hrun.
  rewrite Hw, Hr in Hrun.
  split; [by rewrite Hrun|].
  eapply trace_after_write; [exact Hw | exact Hrun |].
  by rewrite log_Close, (log_UnmarshalResponse_eq _ _ _ _ _ Hr), <- app_assoc.
Qed.



Ltac by_send_only lemma :=
  first
    [ exact (lemma _ (fun device => sendStandardMessage device _ _) _
               (fun device w0 => sendStandardMessage_eq device _ _ w0))
    | exact (lemma _ (fun device => sendExtendedMessage device _ _ _) _
               (fun device w0 => sendExtendedMessage_eq device _ _ _ w0)) ].

(** X1. When the request cannot be written, a command returns the error of
    the write and reads nothing: it has created its token, written and
    closed the token. This holds of every command method but
    [GetDeviceInfo]. *)
Theorem failed_write_ends_command
    (CommandBytesStatusRequest CommandBytesSetDeviceInfo : CommandBytes)
    (LightState : Type) (commandBytes : LightState -> CommandBytes)
    (rampRateToByte : Duration -> byte)
    (onLevelToByte ledBrightnessToByte : float64 -> byte)
    (identity : Identity) (state : LightState) (rampRate : Duration)
    (level : float64) (x10HouseCode x10Unit : byte) (w : world) :
  let set_info := extended_message identity CommandBytesSetDeviceInfo in
  stops_at_write result_error (GetInfo None) GetIMInfoRequest w /\
  stops_at_write id (SetLightState LightState commandBytes None identity state)
    (standard_message identity (commandBytes state)) w /\
  stops_at_write id (Beep None identity)
    (standard_message identity CommandBytesBeep) w /\
  stops_at_write id
    (SetDeviceRampRate CommandBytesSetDeviceInfo rampRateToByte None identity
       rampRate)
    (set_info (x00 :: x05 :: rampRateToByte rampRate :: replicate 11 x00)) w /\
  stops_at_write id
    (SetDeviceOnLevel CommandBytesSetDeviceInfo onLevelToByte None identity
       level)
    (set_info (x00 :: x06 :: onLevelToByte level :: replicate 11 x00)) w /\
  stops_at_write id
    (SetDeviceLEDBrightness CommandBytesSetDeviceInfo ledBrightnessToByte None
       identity level)
    (set_info (x00 :: x07 :: ledBrightnessToByte level :: replicate 11 x00)) w /\
  stops_at_write id
    (SetDeviceX10Address CommandBytesSetDeviceInfo None identity x10HouseCode
       x10Unit)
    (set_info (x00 :: x04 :: x10HouseCode :: x10Unit :: replicate 10 x00)) w /\
  stops_at_write option_result_error (GetAllLinkRecords None)
    GetFirstAllLinkRecordRequest w /\
  stops_at_write result_error
    (GetDeviceStatus CommandBytesStatusRequest None identity)
    (standard_message identity CommandBytesStatusRequest) w.
Proof.
  intros set_info.
  repeat match goal with |- _ /\ _ => split end;
    try by_send_only send_only_stops_at_write.
  - intros e Hw. pose proof (GetInfo_eq w) as Hrun. cbv zeta in Hrun.
    destruct (MarshalRequest _ _ _) as [o w1] eqn:E.
    cbn [fst] in Hw. subst o. split; [by rewrite Hrun|].
    eapply trace_after_write; [exact E | exact Hrun |]. by rewrite log_Close.
  - intros e Hw. pose proof (GetAllLinkRecords_eq w) as Hrun. cbv zeta in Hrun.
    destruct (MarshalRequest _ _ _) as [o w1] eqn:E.
    cbn [fst] in Hw. subst o. split; [by rewrite Hrun|].
    eapply trace_after_write; [exact E | exact Hrun |]. by rewrite log_Close.
  - intros e Hw.
    pose proof (GetDeviceStatus_eq CommandBytesStatusRequest identity w) as Hrun.
    cbv zeta in Hrun.
    destruct (MarshalRequest _ _ _) as [o w1] eqn:E.
    cbn [fst] in Hw. subst o. split; [by rewrite Hrun|].
    eapply trace_after_write; [exact E | exact Hrun |]. by rewrite log_Close.
Qed.

Lemma failed_write_ends_command_witness :
  (GetDeviceStatus CommandBytes_19_00 None id_112233 modem_unwritable).1
    = Err write_error /\
  reads_of (trace (GetDeviceStatus CommandBytes_19_00 None id_112233)
              modem_unwritable) = [] /\
  (Beep None id_112233 modem_unwritable).1 = Some write_error.
Proof.
  destruct (failed_write_ends_command CommandBytes_19_00 CommandBytes_2e_00
              unit (fun _ => CommandBytes_19_00) (fun _ => x1c) (fun _ => xff)
              (fun _ => x7f) id_112233 tt 0%Z 1%Q x60 x0c modem_unwritable)
    as (_ & _ & Hbeep & _ & _ & _ & _ & _ & Hstatus).
  destruct (Hstatus write_error eq_refl) as [Hr Ht].
  destruct (Hbeep write_error eq_refl) as [Hb _].
  split; [|split].
  - destruct (GetDeviceStatus _ _ _ _).1; [discriminate Hr|].
    by injection Hr as ->.
  - rewrite Ht. reflexivity.
  - exact Hb.
Defined.

(** X2. When the request is written and the read of its first reply fails
    with an error, a nak included, a command of one exchange returns that
    error, and [GetDeviceStatus] returns it without reading the message of
    the device that would follow. *)
Theorem failed_reply_ends_command
    (CommandBytesStatusRequest CommandBytesSetDeviceInfo : CommandBytes)
    (LightState : Type) (commandBytes : LightState -> CommandBytes)
    (rampRateToByte : Duration -> byte)
    (onLevelToByte ledBrightnessToByte : float64 -> byte)
    (identity : Identity) (state : LightState) (rampRate : Duration)
    (level : float64) (x10HouseCode x10Unit : byte) (w : world) :
  let set_info := extended_message identity CommandBytesSetDeviceInfo in
  let reply := KSendStandardOrExtendedMessage in
  stops_at_reply result_error (GetInfo None) GetIMInfoRequest KGetIMInfo w /\
  stops_at_reply id (SetLightState LightState commandBytes None identity state)
    (standard_message identity (commandBytes state)) reply w /\
  stops_at_reply id (Beep None identity)
    (standard_message identity CommandBytesBeep) reply w /\
  stops_at_reply id
    (SetDeviceRampRate CommandBytesSetDeviceInfo rampRateToByte None identity
       rampRate)
    (set_info (x00 :: x05 :: rampRateToByte rampRate :: replicate 11 x00))
    reply w /\
  stops_at_reply id
    (SetDeviceOnLevel CommandBytesSetDeviceInfo onLevelToByte None identity
       level)
    (set_info (x00 :: x06 :: onLevelToByte level :: replicate 11 x00))
    reply w /\
  stops_at_reply id
    (SetDeviceLEDBrightness CommandBytesSetDeviceInfo ledBrightnessToByte None
       identity level)
    (set_info (x00 :: x07 :: ledBrightnessToByte level :: replicate 11 x00))
    reply w /\
  stops_at_reply id
    (SetDeviceX10Address CommandBytesSetDeviceInfo None identity x10HouseCode
       x10Unit)
    (set_info (x00 :: x04 :: x10HouseCode :: x10Unit :: replicate 10 x00))
    reply w /\
  stops_at_reply result_error
    (GetDeviceStatus CommandBytesStatusRequest None identity)
    (standard_message identity CommandBytesStatusRequest) reply w.
Proof.
  intros set_info reply. subst set_info reply.
  repeat match goal with |- _ /\ _ => split end;
    try by_send_only send_only_stops_at_reply.
  - intros w1 e w2 Hw Hr. pose proof (GetInfo_eq w) as Hrun. cbv zeta in Hrun.
    rewrite Hw, Hr in Hrun. split; [by rewrite Hrun|].
    eapply trace_after_write; [exact Hw | exact Hrun |].
    by rewrite log_Close, (log_UnmarshalResponse_eq _ _ _ _ _ Hr), <- app_assoc.
  - intros w1 e w2 Hw Hr.
    pose proof (GetDeviceStatus_eq CommandBytesStatusRequest identity w) as Hrun.
    cbv zeta in Hrun. rewrite Hw, Hr in Hrun. split; [by rewrite Hrun|].
    eapply trace_after_write; [exact Hw | exact Hrun |].
    by rewrite log_Close, (log_UnmarshalResponse_eq _ _ _ _ _ Hr), <- app_assoc.
Qed.

Lemma failed_reply_ends_command_witness :
  (GetDeviceStatus CommandBytes_19_00 None id_112233 modem_nak).1
    = Err ErrCommandFailure /\
  reads_of (trace (GetDeviceStatus CommandBytes_19_00 None id_112233)
              modem_nak) = [KSendStandardOrExtendedMessage].
Proof.
  destruct (failed_reply_ends_command CommandBytes_19_00 CommandBytes_2e_00
              unit (fun _ => CommandBytes_19_00) (fun _ => x1c) (fun _ => xff)
              (fun _ => x7f) id_112233 tt 0%Z 1%Q x60 x0c modem_nak)
    as (_ & _ & _ & _ & _ & _ & _ & Hstatus).
  edestruct Hstatus as [Hr Ht]; [reflexivity | reflexivity |].
  split.
  - destruct (GetDeviceStatus _ _ _ _).1; [discriminate Hr|].
    by injection Hr as ->.
  - rewrite Ht. reflexivity.
Defined.



(** X3. [GetInfo] writes one [GetIMInfo] request and, the write having
    succeeded, reads one [GetIMInfoResponse]; when that read succeeds it
    returns the modem info the response carries. *)
Theorem GetInfo_returns_IMInfo (w w1 w2 : world) (info : IMInfo) :
  let device := created w in
  MarshalRequest device GetIMInfoRequest (Acquire None w).2 = (None, w1) ->
  UnmarshalResponse device KGetIMInfo w1 = (Ok info, w2) ->
  GetInfo None w = (Ok info, (Close device w2).2) /\
  trace (GetInfo None) w
    = [EvCreate device; EvWrite device GetIMInfoRequest;
       EvRead device KGetIMInfo; EvClose device].
Proof.
  intros device Hw Hr. pose proof (GetInfo_eq w) as Hrun. cbv zeta in Hrun.
  fold device in Hrun. rewrite Hw, Hr in Hrun. split; [exact Hrun|].
  eapply trace_after_write; [exact Hw | exact Hrun |].
  by rewrite log_Close, (log_UnmarshalResponse_eq _ _ _ _ _ Hr), <- app_assoc.
Qed.

Lemma GetInfo_returns_IMInfo_witness :
  (GetInfo None modem_info).1 = Ok IMInfo_1a2b3c /\
  writes_of (trace (GetInfo None) modem_info) = [GetIMInfoRequest].
Proof.
  edestruct (GetInfo_returns_IMInfo modem_info) as [Hrun Htr];
    [reflexivity | reflexivity |].
  rewrite Hrun, Htr. split; reflexivity.
Defined.

Lemma GetDeviceInfo_eq CommandBytesGetDeviceInfo (DeviceInfo : Type)
    (deviceInfoFromUserData : UserData -> DeviceInfo) identity w :
  GetDeviceInfo CommandBytesGetDeviceInfo DeviceInfo deviceInfoFromUserData
    None identity w =
  let device := created w in
  let (_, w2) :=
    sendExtendedMessage device identity CommandBytesGetDeviceInfo UserData_zero
      (Acquire None w).2 in
  match UnmarshalResponse device KStandardMessageReceived w2 with
  | (Err err, w3) => (Err err, (Close device w3).2)
  | (Ok _, w3) =>
      match UnmarshalResponse device KExtendedMessageReceived w3 with
      | (Err err, w4) => (Err err, (Close device w4).2)
      | (Ok response, w4) =>
          (Ok (deviceInfoFromUserData (emr_UserData response)),
           (Close device w4).2)
      end
  end.
Proof.
  unfold GetDeviceInfo, defer, Acquire, bind, ret. cbn [createToken fst snd].
  destruct (sendExtendedMessage _ _ _ _ _) as [r w2].
  destruct (UnmarshalResponse _ _ w2) as [[ack|e] w3]; [|done].
  by destruct (UnmarshalResponse _ _ w3) as [[response|e] w4].
Qed.

(** X4. [GetDeviceInfo], when its request is written and acknowledged:
    the request is one extended message with the command bytes of
    [GetDeviceInfo] and zero user data; it then reads one
    [StandardMessageReceived], whose content it drops, and one
    [ExtendedMessageReceived], and returns the device info decoded from the
    user data of the latter. An error reading the first of the two is
    returned without reading the second. *)
Theorem GetDeviceInfo_reads_ack_then_info
    (CommandBytesGetDeviceInfo : CommandBytes) (DeviceInfo : Type)
    (deviceInfoFromUserData : UserData -> DeviceInfo) (identity : Identity)
    (w w1 w2 : world) (sent : SendStandardOrExtendedMessageResponse) :
  let device := created w in
  let request :=
    SendMessageRequest
      (mkSendRequest identity 2 3 MessageFlagExtended
         CommandBytesGetDeviceInfo (replicate 14 x00)) in
  let run :=
    GetDeviceInfo CommandBytesGetDeviceInfo DeviceInfo deviceInfoFromUserData
      None identity in
  let start :=
    [EvCreate device; EvWrite device request;
     EvRead device KSendStandardOrExtendedMessage;
     EvRead device KStandardMessageReceived] in
  MarshalRequest device request (Acquire None w).2 = (None, w1) ->
  UnmarshalResponse device KSendStandardOrExtendedMessage w1 = (Ok sent, w2) ->
  match UnmarshalResponse device KStandardMessageReceived w2 with
  | (Err e, w3) =>
      run w = (Err e, (Close device w3).2) /\
      trace run w = (start ++ [EvClose device])%list
  | (Ok ack, w3) =>
      trace run w
        = (start ++ [EvRead device KExtendedMessageReceived; EvClose device])%list
      /\
      match UnmarshalResponse device KExtendedMessageReceived w3 with
      | (Err e, w4) => run w = (Err e, (Close device w4).2)
      | (Ok response, w4) =>
          run w = (Ok (deviceInfoFromUserData (emr_UserData response)),
                   (Close device w4).2)
      end
  end.
Proof.
  intros device request run start Hw Hs. subst run start.
  pose proof (GetDeviceInfo_eq CommandBytesGetDeviceInfo DeviceInfo
                deviceInfoFromUserData identity w) as Hrun.
  cbv zeta in Hrun. fold device in Hrun.
  rewrite sendExtendedMessage_eq in Hrun.
  change (extended_message identity CommandBytesGetDeviceInfo UserData_zero)
    with request in Hrun.
  rewrite Hw, Hs in Hrun.
  destruct (UnmarshalResponse device KStandardMessageReceived w2)
    as [[ack|e] w3] eqn:Ha.
  - destruct (UnmarshalResponse device KExtendedMessageReceived w3)
      as [r w4] eqn:He.
    split; [|by destruct r].
    assert (Hlog : log (Close device w4).2
                   = (log w1 ++ [EvRead device KSendStandardOrExtendedMessage;
                                 EvRead device KStandardMessageReceived;
                                 EvRead device KExtendedMessageReceived;
                                 EvClose device])%list).
    { rewrite log_Close, (log_UnmarshalResponse_eq _ _ _ _ _ He),
        (log_UnmarshalResponse_eq _ _ _ _ _ Ha),
        (log_UnmarshalResponse_eq _ _ _ _ _ Hs).
      by rewrite <- !app_assoc. }
    destruct r as [response|e];
      (eapply trace_after_write; [exact Hw | exact Hrun | exact Hlog]).
  - split; [exact Hrun|].
    eapply trace_after_write; [exact Hw | exact Hrun |].
    rewrite log_Close, (log_UnmarshalResponse_eq _ _ _ _ _ Ha),
      (log_UnmarshalResponse_eq _ _ _ _ _ Hs).
    by rewrite <- !app_assoc.
Qed.

Lemma GetDeviceInfo_reads_ack_then_info_witness :
  (GetDeviceInfo CommandBytes_2e_00 UserData (fun userData => userData) None
     id_112233 modem_device_info).1 = Ok user_data_sample /\
  reads_of (trace (GetDeviceInfo CommandBytes_2e_00 UserData
                     (fun userData => userData) None id_112233)
              modem_device_info)
    = [KSendStandardOrExtendedMessage; KStandardMessageReceived;
       KExtendedMessageReceived].
Proof.
  pose proof (fun w1 w2 sent =>
                GetDeviceInfo_reads_ack_then_info CommandBytes_2e_00 UserData
                  (fun userData => userData) id_112233 modem_device_info
                  w1 w2 sent) as H.
  epose proof (H _ _ _ eq_refl eq_refl) as [Htr Hrun].
  rewrite Htr, Hrun. split; reflexivity.
Defined.



(** X5. [SetLightState] writes one standard message (flags 0) to the target,
    whose command bytes are the ones the light state maps to, and, the write
    having succeeded, reads one [SendMsgResponse] and nothing else. *)
Theorem SetLightState_sends_command_bytes (LightState : Type)
    (commandBytes : LightState -> CommandBytes) (identity : Identity)
    (state : LightState) (w : world) :
  let message :=
    mkSendRequest identity 2 3 x00 (commandBytes state) (replicate 14 x00) in
  has_Extended (req_Flags message) = false /\
  one_exchange (SetLightState LightState commandBytes None identity state)
    (SendMessageRequest message) w.
Proof.
  intros message. split; [done|].
  exact (send_only_exchange _
           (fun device => sendStandardMessage device identity _) w
           (fun device w0 => sendStandardMessage_eq device identity _ w0)).
Qed.

Lemma SetLightState_sends_command_bytes_witness :
  trace (SetLightState bool
           (fun on => mkCommandBytes (if on then x12 else x14) xff)
           None id_112233 true)
    (modem_ack (mkSendRequest id_112233 2 3 x00 (mkCommandBytes x12 xff)
                  UserData_zero))
  = [EvCreate 0;
     EvWrite 0 (SendMessageRequest
                  (mkSendRequest id_112233 2 3 x00 (mkCommandBytes x12 xff)
                     UserData_zero));
     EvRead 0 KSendStandardOrExtendedMessage; EvClose 0].
Proof.
  destruct (SetLightState_sends_command_bytes bool
              (fun on => mkCommandBytes (if on then x12 else x14) xff)
              id_112233 true
              (modem_ack (mkSendRequest id_112233 2 3 x00
                            (mkCommandBytes x12 xff) UserData_zero)))
    as [_ [_ H]].
  exact (H eq_refl).
Defined.

Lemma enumerates_log device w records w' :
  enumerates device w records w' ->
  log w' = (log w ++ rounds_events device (length records))%list /\
  (1 <= length records)%nat.
Proof.
  induction 1 as [w w1 w2 w3 r E1 E2 E3
                 | w w1 w2 w3 w' r u records E1 E2 E3 _ [IH _]].
  - split; [|cbn [length]; lia].
    rewrite (log_UnmarshalResponse_eq _ _ _ _ _ E3),
      (log_MarshalRequest_eq _ _ _ _ _ E2),
      (log_UnmarshalResponse_eq _ _ _ _ _ E1).
    cbn [length rounds_events round_events]. by rewrite <- !app_assoc.
  - split; [|cbn [length]; lia].
    rewrite IH, (log_UnmarshalResponse_eq _ _ _ _ _ E3),
      (log_MarshalRequest_eq _ _ _ _ _ E2),
      (log_UnmarshalResponse_eq _ _ _ _ _ E1).
    cbn [length rounds_events round_events]. by rewrite <- !app_assoc.
Qed.

Lemma writes_of_app l1 l2 :
  writes_of (l1 ++ l2) = (writes_of l1 ++ writes_of l2)%list.
Proof. unfold writes_of. apply omap_app. Qed.

Lemma writes_of_rounds_events device n :
  writes_of (rounds_events device n) = replicate n GetNextAllLinkRecordRequest.
Proof.
  induction n as [|n IH]; [done|].
  cbn [rounds_events replicate]. rewrite writes_of_app, IH. done.
Qed.

(** X6. An enumeration that ends well takes one round per record: after
    the first request and its reply, [GetAllLinkRecords] reads a record,
    writes a request for the next one and reads its reply as many times as
    it returns records, at least once, and then closes the token. It writes
    one request more than it returns records. *)
Theorem GetAllLinkRecords_one_round_per_record (w w1 w2 w3 : world)
    (u : unit) (records : AllLinkRecordList) :
  let device := created w in
  MarshalRequest device GetFirstAllLinkRecordRequest (Acquire None w).2
    = (None, w1) ->
  UnmarshalResponse device KGetFirstAllLinkRecord w1 = (Ok u, w2) ->
  enumerates device w2 records w3 ->
  exists out,
    (GetAllLinkRecords None w).1 = Some (Ok out) /\
    length out = length records /\
    (1 <= length out)%nat /\
    trace (GetAllLinkRecords None) w
      = (EvCreate device :: EvWrite device GetFirstAllLinkRecordRequest ::
         EvRead device KGetFirstAllLinkRecord ::
         rounds_events device (length out) ++ [EvClose device])%list /\
    writes_of (trace (GetAllLinkRecords None) w)
      = GetFirstAllLinkRecordRequest ::
        replicate (length out) GetNextAllLinkRecordRequest.
Proof.
  intros device Hw Hr Henum.
  pose proof (GetAllLinkRecords_eq w) as Hrun. cbv zeta in Hrun.
  fold device in Hrun. rewrite Hw, Hr in Hrun.
  rewrite (GetAllLinkRecords_loop_enumerates device w2 records w3 Henum
             _ [] (Nat.lt_succ_diag_r _)) in Hrun.
  cbn [app] in Hrun.
  destruct (enumerates_log _ _ _ _ Henum) as [Hlog Hlen].
  assert (Hout : length (sort_Sort records) = length records)
    by (by rewrite sort_Sort_Permutation).
  assert (Htr : trace (GetAllLinkRecords None) w
      = (EvCreate device :: EvWrite device GetFirstAllLinkRecordRequest ::
         EvRead device KGetFirstAllLinkRecord ::
         rounds_events device (length (sort_Sort records))
           ++ [EvClose device])%list).
  { eapply trace_after_write; [exact Hw | exact Hrun |].
    rewrite log_Close, Hlog, (log_UnmarshalResponse_eq _ _ _ _ _ Hr), Hout.
    by rewrite <- !app_assoc. }
  exists (sort_Sort records). rewrite Htr, Hrun.
  repeat split; [exact Hout | lia |].
  change (writes_of
            ([EvCreate device; EvWrite device GetFirstAllLinkRecordRequest;
              EvRead device KGetFirstAllLinkRecord]
             ++ rounds_events device (length (sort_Sort records))
             ++ [EvClose device])
          = GetFirstAllLinkRecordRequest ::
            replicate (length (sort_Sort records)) GetNextAllLinkRecordRequest).
  rewrite !writes_of_app, writes_of_rounds_events.
  cbn. by rewrite app_nil_r.
Qed.

Lemma GetAllLinkRecords_one_round_per_record_witness :
  writes_of (trace (GetAllLinkRecords None) modem_two_records)
  = [GetFirstAllLinkRecordRequest; GetNextAllLinkRecordRequest;
     GetNextAllLinkRecordRequest].
Proof.
  pose proof (fun w1 w2 w3 =>
                GetAllLinkRecords_one_round_per_record modem_two_records
                  w1 w2 w3 tt [record_2; record_1]) as H.
  edestruct H as (out & Hrun & Hlen & _ & _ & Hwr).
  - reflexivity.
  - reflexivity.
  - eapply enumerates_next; [reflexivity..|].
    eapply enumerates_last; reflexivity.
  - rewrite Hwr, Hlen. reflexivity.
Defined.

Lemma GetAllLinkRecords_loop_fails device w e w' :
  enumeration_fails device w e w' ->
  forall bound acc,
    length (rd_script w) < bound ->
    GetAllLinkRecords_loop bound device acc w = (Some (Err e), w').
Proof.
  induction 1 as [w e w1 E1 | w r w1 e w2 E1 E2 | w r w1 w2 e w3 E1 E2 E3 Hne
                 | w r w1 w2 u w3 e w' E1 E2 E3 _ IH];
    intros bound acc Hlen; (destruct bound as [|bound]; [lia|]);
    rewrite GetAllLinkRecords_loop_eq.
  - by rewrite E1.
  - by rewrite E1, E2.
  - rewrite E1, E2, E3. by destruct (decide (e = ErrCommandFailure)).
  - rewrite E1, E2, E3. apply IH.
    apply UnmarshalResponse_Ok_rd in E1, E3.
    assert (Hrd : rd_script w2 = rd_script w1)
      by (rewrite <- (MarshalRequest_rd device GetNextAllLinkRecordRequest w1);
          by rewrite E2).
    rewrite Hrd in E3. lia.
Qed.

(** X7. An enumeration that breaks returns the error and no record. After
    the first request is written and acknowledged, when some round fails
    (the read of a record fails, a command failure included; or the request
    for the next record cannot be written; or its reply fails with an error
    other than a command failure), [GetAllLinkRecords] returns that error,
    whatever records it has read before, and closes the token. *)
Theorem GetAllLinkRecords_failure_drops_records (w w1 w2 w3 : world)
    (u : unit) (e : error) :
  let device := created w in
  MarshalRequest device GetFirstAllLinkRecordRequest (Acquire None w).2
    = (None, w1) ->
  UnmarshalResponse device KGetFirstAllLinkRecord w1 = (Ok u, w2) ->
  enumeration_fails device w2 e w3 ->
  GetAllLinkRecords None w = (Some (Err e), (Close device w3).2).
Proof.
  intros device Hw Hr Hfail.
  rewrite GetAllLinkRecords_eq. cbv zeta. fold device. rewrite Hw, Hr.
  by rewrite (GetAllLinkRecords_loop_fails device w2 e w3 Hfail
                _ [] (Nat.lt_succ_diag_r _)).
Qed.

Lemma GetAllLinkRecords_failure_drops_records_witness :
  (GetAllLinkRecords None modem_silent).1 = Some (Err io_EOF).
Proof.
  pose proof (fun w1 w2 w3 =>
                GetAllLinkRecords_failure_drops_records modem_silent
                  w1 w2 w3 tt io_EOF) as H.
  erewrite H; [reflexivity | reflexivity | reflexivity |].
  eapply fails_later; [reflexivity..|].
  eapply fails_record. reflexivity.
Defined.

End plm_more_facts.

(** * Properties of the background loops *)

Section plm_loops_facts.
Import plm plm_loops.

(** A token whose service does not end the dispatcher: its connection ends
    with [io.ErrClosedPipe], or [stop] is closed by then. *)
Local Abbreviation harmless stop c :=
  (fun t : token => c t = Some io_ErrClosedPipe \/ stop t = true).

(** X8. [dispatchLoop] serves the tokens in the order the channel delivers
    them, one at a time: each is signalled ready and connected, and the next
    one is signalled only after that connection has ended. It goes through
    all of them unless a connection ends with something else than
    [io.ErrClosedPipe] (no error at all included) while [stop] is open: it
    then panics with that value, and no later token is ever signalled. *)
Theorem dispatchLoop_serves_in_order (stop : token -> bool)
    (tokens : list token) (c : token -> option error) :
  exists served,
    Forall (harmless stop c) served /\
    match dispatchLoop stop tokens c with
    | (events, None) => tokens = served /\ events = serving served
    | (events, Some p) =>
        exists t rest,
          tokens = (served ++ t :: rest)%list /\
          events = serving (served ++ [t]) /\
          c t <> Some io_ErrClosedPipe /\ stop t = false /\
          p = PanicError (c t)
    end.
Proof.
  induction tokens as [|token tokens [served [Hs IH]]].
  - exists []. by split.
  - cbn [dispatchLoop].
    destruct (dispatchLoop stop tokens c) as [events p].
    assert (Hnext : harmless stop c token ->
              exists served0,
                Forall (harmless stop c) served0 /\
                match (EvReady token :: EvConnect token :: events, p) with
                | (events0, None) =>
                    token :: tokens = served0 /\ events0 = serving served0
                | (events0, Some p0) =>
                    exists t rest,
                      token :: tokens = (served0 ++ t :: rest)%list /\
                      events0 = serving (served0 ++ [t]) /\
                      c t <> Some io_ErrClosedPipe /\ stop t = false /\
                      p0 = PanicError (c t)
                end).
    { intros Hok. exists (token :: served). split; [by constructor|].
      destruct p as [p|].
      - destruct IH as (t & rest & -> & -> & Hc & Hst & ->).
        by exists t, rest.
      - destruct IH as [-> ->]. done. }
    destruct (decide (c token = Some io_ErrClosedPipe)) as [Hc|Hc];
      [by apply Hnext; left|].
    unfold panicStop. destruct (stop token) eqn:Hst; [by apply Hnext; right|].
    exists []. split; [constructor|]. by exists token, tokens.
Qed.

Lemma fill_spec i f s a :
  responses s = [a; S a] -> length (heap s) = S (S a) ->
  responses (fill i f s) = responses s /\
  received (fill i f s) = received s /\
  length (heap (fill i f s)) = length (heap s) /\
  (forall p, p < a -> heap (fill i f s) !! p = heap s !! p) /\
  (forall p, responses s !! i = Some p -> heap (fill i f s) !! p = Some (Some f)).
Proof.
  intros Hr Hl. unfold fill. destruct (responses s !! i) as [q|] eqn:Hq.
  - cbn [responses received heap]. rewrite length_insert.
    repeat split; try done.
    + intros p Hp. apply list_lookup_insert_ne.
      rewrite Hr in Hq. destruct i as [|[|i]]; simplify_eq/=; lia.
    + intros p [= <-]. apply list_lookup_insert_eq.
      rewrite Hr in Hq. destruct i as [|[|i]]; simplify_eq/=; lia.
  - repeat split; try done.
Qed.

Lemma fill_all_spec partial s a :
  responses s = [a; S a] -> length (heap s) = S (S a) ->
  let s' := fold_left (fun s jf => fill jf.1 jf.2 s) partial s in
  responses s' = responses s /\ received s' = received s /\
  length (heap s') = length (heap s) /\
  (forall p, p < a -> heap s' !! p = heap s !! p).
Proof.
  revert s. induction partial as [|[j f] partial IH]; intros s Hr Hl; [done|].
  cbn [fold_left fst snd].
  destruct (fill_spec j f s a Hr Hl) as (Hr1 & Hc1 & Hl1 & Hh1 & _).
  destruct (IH (fill j f s)) as (Hr2 & Hc2 & Hl2 & Hh2); [congruence..|].
  repeat split; try congruence.
  intros p Hp. by rewrite Hh2, Hh1.
Qed.

Lemma monitor_frames_preserved s s' a :
  Forall (fun p => p < a) (received s) ->
  received s' = received s ->
  (forall p, p < a -> heap s' !! p = heap s !! p) ->
  monitor_frames s' = monitor_frames s.
Proof.
  unfold monitor_frames. intros Hlt -> Hh.
  induction Hlt as [|p l Hp _ IH]; [done|].
  cbn [map]. by rewrite IH, Hh.
Qed.

Lemma resetResponses_spec s :
  Forall (fun p => p < length (heap s)) (received s) ->
  fresh_pair (resetResponses s) /\
  monitor_frames (resetResponses s) = monitor_frames s.
Proof.
  intros Hlt. split.
  - exists (length (heap s)). cbn [resetResponses responses heap received].
    rewrite length_app. cbn [length]. repeat split; [lia | done].
  - apply (monitor_frames_preserved _ _ (length (heap s))); [done | done |].
    intros p Hp. cbn [resetResponses heap]. by apply lookup_app_l.
Qed.

Lemma monitor_frames_readFunc p s :
  monitor_frames (readFunc p s)
  = (monitor_frames s ++ [mjoin (heap s !! p)])%list.
Proof. unfold monitor_frames, readFunc. cbn. by rewrite map_app. Qed.

(** One pass of the monitored loop that does not panic. *)
Lemma monitored_pass o s :
  fresh_pair s -> in_range (o, false) = true ->
  let '(i, err, s1) := UnmarshalResponses o s in
  match err with
  | None =>
      exists p f,
        o = Decoded i f /\ responses s1 !! i = Some p /\
        fresh_pair (resetResponses (readFunc p s1)) /\
        monitor_frames (resetResponses (readFunc p s1))
          = (monitor_frames s ++ [Some f])%list
  | Some e =>
      (exists partial, o = Failed e partial) /\
      fresh_pair (resetResponses s1) /\
      monitor_frames (resetResponses s1) = monitor_frames s
  end /\ monitor_frames s1 = monitor_frames s.
Proof.
  intros (a & Hr & Hl & Hlt) Hin. destruct o as [i f | e partial];
    cbn [UnmarshalResponses].
  - destruct (fill_spec i f s a Hr Hl) as (Hr1 & Hc1 & Hl1 & Hh1 & Hf1).
    unfold in_range in Hin. cbn [fst] in Hin. apply Nat.ltb_lt in Hin.
    assert (Hm : monitor_frames (fill i f s) = monitor_frames s)
      by (by apply (monitor_frames_preserved _ _ a)).
    split; [|exact Hm].
    assert (exists p, responses s !! i = Some p /\ p < S (S a)) as (p & Hp & Hpl).
    { rewrite Hr. destruct i as [|[|i]]; [by exists a; split; [|lia]
        | by exists (S a); split; [|lia] | lia]. }
    exists p, f. split; [done|]. split; [by rewrite Hr1|].
    destruct (resetResponses_spec (readFunc p (fill i f s))) as [Hfp Hmf].
    { cbn [readFunc heap received]. rewrite Hl1, Hl, Hc1.
      apply Forall_app. split; [|constructor; [exact Hpl | constructor]].
      eapply Forall_impl; [exact Hlt|]. cbn. intros; lia. }
    split; [exact Hfp|].
    rewrite Hmf, monitor_frames_readFunc, Hm. by rewrite (Hf1 p Hp).
  - destruct (fill_all_spec partial s a Hr Hl) as (Hr1 & Hc1 & Hl1 & Hh1).
    assert (Hm : monitor_frames
                   (fold_left (fun s jf => fill jf.1 jf.2 s) partial s)
                 = monitor_frames s)
      by (by apply (monitor_frames_preserved _ _ a)).
    split; [|exact Hm]. split; [by exists partial|].
    destruct (resetResponses_spec
                (fold_left (fun s jf => fill jf.1 jf.2 s) partial s))
      as [Hfp Hmf].
    { rewrite Hl1, Hl, Hc1. eapply Forall_impl; [exact Hlt|]. cbn. intros; lia. }
    split; [exact Hfp|]. by rewrite Hmf.
Qed.



Lemma readLoop_for_monitored input :
  forall s,
    fresh_pair s -> forallb in_range input = true ->
    exists n,
      monitor_frames (readLoop_for true input s).1
        = (monitor_frames s ++ map Some (frames_decoded (take n input)))%list /\
      existsb fatal (take n input) = false /\
      match (readLoop_for true input s).2 with
      | None => n = length input
      | Some p =>
          exists e partial,
            input !! n = Some (Failed e partial, false) /\
            e <> ErrCommandFailure /\ p = PanicError (Some e)
      end.
Proof.
  induction input as [|[o stopped] input IH]; intros s Hs Hin.
  - exists 0%nat. cbn. by rewrite app_nil_r.
  - cbn [forallb] in Hin. apply andb_prop in Hin as [Ho Hin].
    pose proof (monitored_pass o s Hs Ho) as Hpass.
    cbn [readLoop_for].
    destruct (UnmarshalResponses o s) as [[i err] s1].
    destruct Hpass as [Hpass Hm1].
    destruct err as [e|].
    + destruct Hpass as ((partial & ->) & Hfp & Hmf).
      assert (Hgo : exists n,
                monitor_frames (readLoop_for true input (resetResponses s1)).1
                  = (monitor_frames s
                     ++ map Some (frames_decoded
                                    (take n ((Failed e partial, stopped) :: input))))%list /\
                existsb fatal (take n ((Failed e partial, stopped) :: input))
                  = fatal (Failed e partial, stopped) /\
                match (readLoop_for true input (resetResponses s1)).2 with
                | None => n = length ((Failed e partial, stopped) :: input)
                | Some p =>
                    exists e0 partial0,
                      ((Failed e partial, stopped) :: input) !! n
                        = Some (Failed e0 partial0, false) /\
                      e0 <> ErrCommandFailure /\ p = PanicError (Some e0)
                end).
      { destruct (IH _ Hfp Hin) as (n & Hn1 & Hn2 & Hn3).
        exists (S n). rewrite Hn1, Hmf. cbn [take existsb].
        rewrite Hn2, orb_false_r. split; [done|]. split; [done|].
        destruct (readLoop_for true input (resetResponses s1)).2; [|by subst].
        exact Hn3. }
      destruct (decide (e = ErrCommandFailure)) as [->|Hne].
      * destruct Hgo as (n & H1 & H2 & H3). exists n.
        split; [exact H1|]. split; [|exact H3].
        rewrite H2. by destruct stopped.
      * unfold panicStop. destruct stopped.
        -- destruct Hgo as (n & H1 & H2 & H3). exists n.
           split; [exact H1|]. split; [|exact H3]. by rewrite H2.
        -- exists 0%nat. cbn. rewrite app_nil_r. split; [done|]. split; [done|].
           by exists e, partial.
    + destruct Hpass as (p & f & -> & Hp & Hfp & Hmf). rewrite Hp.
      destruct (IH _ Hfp Hin) as (n & Hn1 & Hn2 & Hn3).
      exists (S n). rewrite Hn1, Hmf, <- app_assoc. cbn [take existsb].
      split; [done|]. split; [by destruct stopped|].
      destruct (readLoop_for true input _).2; [|by subst].
      exact Hn3.
Qed.

(** X9. With a monitor, and a decoder that returns the index of one of the
    two structs it is given: when [readLoop] is about to read again or has
    panicked, the monitor holds the frames decoded so far, all of them and in
    the order they came, and each is what was decoded, whatever the decoder
    has written to the reader's structs since. Frames ending in a nak are
    skipped. The loop ends only by a panic, at the first failure other than
    a command failure that it meets while [stop] is open, with that error. *)
Theorem readLoop_monitor_holds_decoded_frames (input : list (decoding * bool)) :
  forallb in_range input = true ->
  exists n,
    monitor_frames (readLoop true input).1
      = map Some (frames_decoded (take n input)) /\
    existsb fatal (take n input) = false /\
    match (readLoop true input).2 with
    | None => n = length input
    | Some p =>
        exists e partial,
          input !! n = Some (Failed e partial, false) /\
          e <> ErrCommandFailure /\ p = PanicError (Some e)
    end.
Proof.
  intros Hin. unfold readLoop.
  destruct (resetResponses_spec (mkReader [] [] [])) as [Hfp Hmf];
    [constructor|].
  destruct (readLoop_for_monitored input _ Hfp Hin) as (n & H1 & H2 & H3).
  exists n. rewrite H1, Hmf. by split.
Qed.

Lemma readLoop_monitor_holds_decoded_frames_witness :
  monitor_frames (readLoop true stream_sample).1
    = [Some frame_on; Some frame_info] /\
  (readLoop true stream_sample).2 = Some (PanicError (Some io_EOF)).
Proof.
  destruct (readLoop_monitor_holds_decoded_frames stream_sample eq_refl)
    as (n & Hm & Hf & Hp).
  destruct (readLoop true stream_sample).2 as [p|] eqn:E; [|discriminate E].
  destruct Hp as (e & partial & Hn & Hne & ->).
  destruct n as [|[|[|[|[|n]]]]]; try discriminate Hn;
    injection Hn as <- <-; try (by destruct Hne).
  split; [exact Hm | exact E].
Defined.

Lemma readLoop_for_unmonitored input :
  forall s,
    existsb fatal input = false -> (readLoop_for false input s).2 = None.
Proof.
  induction input as [|[o stopped] input IH]; intros s Hf; [done|].
  cbn [existsb] in Hf. apply orb_false_elim in Hf as [Ho Hf].
  cbn [readLoop_for]. destruct (UnmarshalResponses o s) as [[i err] s1] eqn:E.
  destruct o as [j f | e partial]; cbn in E; injection E as <- <- <-.
  - by apply IH.
  - destruct (decide (e = ErrCommandFailure)); [by apply IH|].
    destruct stopped; [by apply IH|].
    cbn in Ho. by rewrite bool_decide_eq_true_2 in Ho.
Qed.

(** X10. [readLoop] does not return. With or without a monitor, as long
    as every failure it meets is a command failure or is met once [stop] is
    closed, it goes on reading: when the input is used up it is about to
    read again. In particular, once [stop] is closed no error ends it. *)
Theorem readLoop_goes_on_once_stopped (monitored : bool)
    (input : list (decoding * bool)) :
  forallb in_range input = true ->
  existsb fatal input = false ->
  (readLoop monitored input).2 = None.
Proof.
  intros Hin Hf. destruct monitored.
  - unfold readLoop.
    destruct (resetResponses_spec (mkReader [] [] [])) as [Hfp _];
      [constructor|].
    destruct (readLoop_for_monitored input _ Hfp Hin) as (n & _ & _ & H3).
    destruct (readLoop_for true input _).2 as [p|]; [|done].
    destruct H3 as (e & partial & Hn & Hne & _).
    assert (fatal (Failed e partial, false) = true)
      by (cbn; by rewrite bool_decide_eq_true_2).
    assert (existsb fatal input = true); [|congruence].
    apply existsb_exists. exists (Failed e partial, false). split; [|done].
    apply list_elem_of_In. by eapply list_elem_of_lookup_2.
  - by apply readLoop_for_unmonitored.
Qed.

Lemma readLoop_goes_on_once_stopped_witness :
  (readLoop true [(Decoded 0 frame_on, true); (Failed io_EOF [], true);
                  (Failed io_ErrClosedPipe [], true)]).2 = None /\
  (readLoop false [(Failed io_EOF [], true)]).2 = None.
Proof.
  split.
  - apply readLoop_goes_on_once_stopped; reflexivity.
  - apply readLoop_goes_on_once_stopped; reflexivity.
Defined.

End plm_loops_facts.

(** * Properties of starting and stopping *)

Section plm_run_facts.
Import plm plm_run.

Lemma Start_eq monitor m rt :
  Start monitor m rt =
  let p := length (pipes rt) in
  let s := length (channels rt) in
  (mkPowerLineModem (reader m) (writer m) (closer m) (Some (S s)) (Some s)
     (Some p) monitor,
   mkRuntime (channels rt ++ [false; false]) (pipes rt ++ [false])
     (closed_devices rt)
     (goroutines rt ++ [go_readLoop s (TeeReader (reader m) p) monitor;
                        go_dispatchLoop s (S s) p])).
Proof.
  unfold Start, new_ConnectedPipe, make_chan, go. cbn.
  rewrite length_app, Nat.add_1_r, <- !app_assoc. done.
Qed.

Lemma Stop_started m rt l q d g :
  stop m = Some (length l) -> tokens m = Some (S (length l)) ->
  pipe m = Some (length q) ->
  rt = mkRuntime (l ++ [false; false]) (q ++ [false]) d g ->
  Stop m rt =
  (None,
   mkPowerLineModem (reader m) (writer m) (closer m) None None (pipe m)
     (monitor m),
   mkRuntime (l ++ [true; true]) (q ++ [true]) d g).
Proof.
  intros Hs Ht Hp ->. unfold Stop, close. rewrite Hs.
  cbn [channels pipes closed_devices goroutines].
  rewrite lookup_app_r, Nat.sub_diag; [|lia]. cbn [lookup list_lookup].
  cbn [tokens]. rewrite Ht.
  rewrite insert_app_r_alt, Nat.sub_diag; [|lia]. cbn [insert list_insert].
  cbn [channels].
  rewrite lookup_app_r; [|lia].
  replace (S (length l) - length l)%nat with 1%nat by lia.
  cbn [lookup list_lookup].
  rewrite insert_app_r_alt; [|lia].
  replace (S (length l) - length l)%nat with 1%nat by lia.
  cbn [insert list_insert]. unfold pipe_Close. cbn [pipe]. rewrite Hp.
  cbn [pipes]. rewrite insert_app_r_alt, Nat.sub_diag; [|lia]. done.
Qed.

Lemma Start_Stop_eq monitor m rt :
  Stop (Start monitor m rt).1 (Start monitor m rt).2 =
  let p := length (pipes rt) in
  let s := length (channels rt) in
  (None,
   mkPowerLineModem (reader m) (writer m) (closer m) None None (Some p) monitor,
   mkRuntime (channels rt ++ [true; true]) (pipes rt ++ [true])
     (closed_devices rt)
     (goroutines rt ++ [go_readLoop s (TeeReader (reader m) p) monitor;
                        go_dispatchLoop s (S s) p])).
Proof.
  rewrite Start_eq. cbv zeta. cbn [fst snd].
  by erewrite Stop_started; [|reflexivity..].
Qed.

(** X11. [Stop] after [Start] ends what [Start] began. [Start] makes one
    pipe and two channels and starts two goroutines: the reader, on the
    modem's reader tee'd to the pipe, and the dispatcher, on the pipe and
    the channel of tokens, both with the same [stop]. [Stop] then closes
    those two channels and that pipe without a panic, sets the two channel
    fields to nil, and leaves the device open and everything that existed
    before as it was. *)
Theorem Stop_closes_what_Start_made (monitor : option nat)
    (m : PowerLineModem) (rt : runtime) :
  let p := length (pipes rt) in
  let s := length (channels rt) in
  let '(f, m2, rt2) := Stop (Start monitor m rt).1 (Start monitor m rt).2 in
  f = None /\ stop m2 = None /\ tokens m2 = None /\
  goroutines rt2
    = (goroutines rt ++ [go_readLoop s (TeeReader (reader m) p) monitor;
                         go_dispatchLoop s (S s) p])%list /\
  channels rt2 = (channels rt ++ [true; true])%list /\
  pipes rt2 = (pipes rt ++ [true])%list /\
  closed_devices rt2 = closed_devices rt /\
  reader m2 = reader m /\ writer m2 = writer m /\ closer m2 = closer m.
Proof.
  intros p s. rewrite Start_Stop_eq. by repeat split.
Qed.

(** X12. [Close] closes the device only on a running modem. On a modem that
    was never started, and on one that was started and stopped, [Stop] and
    [Close] panic on the nil channel [stop] at their first statement: nothing
    is changed and the device is left open. On a started modem [Close]
    closes the device after it has stopped the modem. *)
Theorem Close_needs_a_running_modem (device : nat) (monitor : option nat)
    (rt : runtime) :
  let started := Start monitor (New device) rt in
  let stopped := Stop started.1 started.2 in
  Close (New device) rt = (Some close_of_nil_channel, New device, rt) /\
  Stop stopped.1.2 stopped.2
    = (Some close_of_nil_channel, stopped.1.2, stopped.2) /\
  Close stopped.1.2 stopped.2
    = (Some close_of_nil_channel, stopped.1.2, stopped.2) /\
  closed_devices stopped.2 = closed_devices rt /\
  (Close started.1 started.2).1.1 = None /\
  closed_devices (Close started.1 started.2).2
    = (closed_devices rt ++ [device])%list.
Proof.
  intros started stopped. subst stopped started.
  split; [done|].
  unfold Close. rewrite Start_Stop_eq. cbv zeta. cbn [fst snd].
  by repeat split.
Qed.

(** X13. [Acquire] does not return before the dispatcher has received the
    token, whatever the context: on a modem that was never started or that
    was stopped it blocks for ever, the channel of tokens being nil; on a
    started modem it blocks as long as the dispatcher does not receive from
    the channel of tokens, and only then does it look at the context. *)
Theorem Acquire_waits_for_the_dispatcher (device : nat) (monitor : option nat)
    (rt : runtime) (received : bool) (ctx : Context) (w : world) :
  let started := Start monitor (New device) rt in
  let stopped := Stop started.1 started.2 in
  Acquire_on (New device) rt received ctx w = BlocksForever /\
  Acquire_on stopped.1.2 stopped.2 received ctx w = BlocksForever /\
  Acquire_on started.1 started.2 false ctx w = BlocksForever /\
  Acquire_on started.1 started.2 true ctx w = Returns (Acquire ctx w).
Proof.
  intros started stopped. subst stopped started.
  split; [done|].
  rewrite Start_Stop_eq, Start_eq. cbv zeta. cbn [fst snd].
  unfold Acquire_on. cbn [tokens channels fst snd].
  rewrite lookup_app_r; [|lia].
  replace (S (length (channels rt)) - length (channels rt))%nat with 1%nat
    by lia.
  by repeat split.
Qed.

End plm_run_facts.

(** * More properties of the web service *)

Section insteon_more_facts.
Import insteon insteon_more.

Variable ID : Type.
Variable LightState : Type.
Variable DeviceInfo : Type.
Variable Context : Type.
Variable Modem : Type.
Variable impl : PowerLineModem ID LightState DeviceInfo Context Modem.
Variable ParseID : string -> result ID.
Variable LookupDevice : string -> result (ConfigurationDevice ID).
Variable consumeMediaParams : string -> option error.
Variable Decode_LightState : string -> result LightState.
Variable Encode_LightState : LightState -> string.
Variable Decode_DeviceInfo : string -> result DeviceInfo.
Variable Encode_DeviceInfo : DeviceInfo -> string.

Local Abbreviation Request := (Request Context).
Local Abbreviation WebService := (WebService ID LightState DeviceInfo Modem).

Ltac pick_status :=
  first [ left; reflexivity
        | right; left; reflexivity
        | right; right; left; reflexivity
        | right; right; right; reflexivity ].

Ltac status_clash :=
  match goal with
  | H : _ \/ _ |- _ => destruct H as [H|H]; vm_compute in H; discriminate H
  | H : Some _ = Some _ |- _ => vm_compute in H; discriminate H
  | H : @eq (option _) _ _ |- _ => discriminate H
  end.

Ltac put_outcome_known :=
  unfold put_outcome; cbn [fst snd status handleError handleValue];
  split; [pick_status|];
  split; [split; intros ?; first [reflexivity | status_clash] |];
  intros ?; first [reflexivity | status_clash].

(** X14. How a PUT ends. Each of the four PUT handlers answers with one of
    the statuses 200, 400, 404 and 500. The status is 404 exactly when the
    identity of the route does not parse, or its alias is unknown, whatever
    the body is; and when the status is 404 or 400 the handler has made no
    call to the modem and has left it as it was. *)
Theorem rejected_put_leaves_modem_alone (r : Request) (s : WebService) :
  put_outcome (parseID ParseID ResponseWriter_new r).1 s
    (handleSetDeviceState impl ParseID consumeMediaParams Decode_LightState
       Encode_LightState ResponseWriter_new r s) /\
  put_outcome (parseID ParseID ResponseWriter_new r).1 s
    (handleSetDeviceInfo impl ParseID consumeMediaParams Decode_DeviceInfo
       Encode_DeviceInfo ResponseWriter_new r s) /\
  put_outcome (parseDevice LookupDevice ResponseWriter_new r).1 s
    (handleAPISetDeviceState impl LookupDevice consumeMediaParams
       Decode_LightState Encode_LightState ResponseWriter_new r s) /\
  put_outcome (parseDevice LookupDevice ResponseWriter_new r).1 s
    (handleAPISetDeviceInfo impl LookupDevice consumeMediaParams
       Decode_DeviceInfo Encode_DeviceInfo ResponseWriter_new r s).
Proof.
  repeat match goal with |- _ /\ _ => split end.
  - unfold handleSetDeviceState.
    pose proof (parseID_new _ _ ParseID r) as Hid.
    destruct (parseID ParseID ResponseWriter_new r) as [[id|] w1].
    2: { unfold put_outcome. cbn [fst snd]. rewrite Hid.
         split; [pick_status|]. by split. }
    subst w1.
    pose proof (decodeValue_new _ consumeMediaParams Decode_LightState r)
      as Hdec.
    destruct (decodeValue _ Decode_LightState _ r) as [[state|] w2].
    2: { unfold put_outcome. cbn [fst snd]. rewrite Hdec.
         split; [pick_status|].
         split; [split; intros ?; status_clash | done]. }
    destruct Hdec as (-> & _).
    unfold PowerLineModem_SetDeviceState.
    destruct (SetDeviceState impl _ id state (modem s)) as [[err|] m];
      put_outcome_known.
  - unfold handleSetDeviceInfo.
    pose proof (parseID_new _ _ ParseID r) as Hid.
    destruct (parseID ParseID ResponseWriter_new r) as [[id|] w1].
    2: { unfold put_outcome. cbn [fst snd]. rewrite Hid.
         split; [pick_status|]. by split. }
    subst w1.
    pose proof (decodeValue_new _ consumeMediaParams Decode_DeviceInfo r)
      as Hdec.
    destruct (decodeValue _ Decode_DeviceInfo _ r) as [[deviceInfo|] w2].
    2: { unfold put_outcome. cbn [fst snd]. rewrite Hdec.
         split; [pick_status|].
         split; [split; intros ?; status_clash | done]. }
    destruct Hdec as (-> & _).
    unfold PowerLineModem_SetDeviceInfo.
    destruct (SetDeviceInfo impl _ id deviceInfo (modem s)) as [[err|] m];
      put_outcome_known.
  - unfold handleAPISetDeviceState.
    pose proof (parseDevice_new _ _ LookupDevice r) as Hdev.
    destruct (parseDevice LookupDevice ResponseWriter_new r) as [[device|] w1].
    2: { unfold put_outcome. cbn [fst snd]. rewrite Hdev.
         split; [pick_status|]. by split. }
    destruct Hdev as [-> _].
    pose proof (decodeValue_new _ consumeMediaParams Decode_LightState r)
      as Hdec.
    destruct (decodeValue _ Decode_LightState _ r) as [[state|] w2].
    2: { unfold put_outcome. cbn [fst snd]. rewrite Hdec.
         split; [pick_status|].
         split; [split; intros ?; status_clash | done]. }
    destruct Hdec as (-> & _).
    unfold PowerLineModem_SetDeviceState.
    destruct (SetDeviceState impl _ (dev_ID device) state (modem s))
      as [[err|] m]; put_outcome_known.
  - unfold handleAPISetDeviceInfo.
    pose proof (parseDevice_new _ _ LookupDevice r) as Hdev.
    destruct (parseDevice LookupDevice ResponseWriter_new r) as [[device|] w1].
    2: { unfold put_outcome. cbn [fst snd]. rewrite Hdev.
         split; [pick_status|]. by split. }
    destruct Hdev as [-> _].
    pose proof (decodeValue_new _ consumeMediaParams Decode_DeviceInfo r)
      as Hdec.
    destruct (decodeValue _ Decode_DeviceInfo _ r) as [[deviceInfo|] w2].
    2: { unfold put_outcome. cbn [fst snd]. rewrite Hdec.
         split; [pick_status|].
         split; [split; intros ?; status_clash | done]. }
    destruct Hdec as (-> & _).
    unfold PowerLineModem_SetDeviceInfo.
    destruct (SetDeviceInfo impl _ (dev_ID device) deviceInfo (modem s))
      as [[err|] m]; put_outcome_known.
Qed.



(** X15. How a GET of a device ends. The handler of a [/plm] route, when
    the identity does not parse, and the handler of an alias route, when the
    alias is unknown, answers 404 and leaves the modem alone. Otherwise it
    makes exactly one call, a read of the identity, for an alias of its
    primary identity only, and answers with the value read, encoded, under
    status 200, or with the error of the read under status 500. *)
Theorem get_handlers_read_once (r : Request) (s : WebService) :
  let ctx := req_Context r in
  let read_state id out :=
    let read := GetDeviceState impl ctx id (modem s) in
    out = (answer Encode_LightState read.1,
           mkWebService read.2 (calls s ++ [CallGetDeviceState id])%list) in
  let read_info id out :=
    let read := GetDeviceInfo impl ctx id (modem s) in
    out = (answer Encode_DeviceInfo read.1,
           mkWebService read.2 (calls s ++ [CallGetDeviceInfo id])%list) in
  let refused (out : ResponseWriter * WebService) :=
    status out.1 = Some StatusNotFound /\ out.2 = s in
  match (parseID ParseID ResponseWriter_new r).1 with
  | None =>
      refused (handleGetDeviceState impl ParseID Encode_LightState
                 ResponseWriter_new r s) /\
      refused (handleGetDeviceInfo impl ParseID Encode_DeviceInfo
                 ResponseWriter_new r s)
  | Some id =>
      read_state id (handleGetDeviceState impl ParseID Encode_LightState
                       ResponseWriter_new r s) /\
      read_info id (handleGetDeviceInfo impl ParseID Encode_DeviceInfo
                      ResponseWriter_new r s)
  end /\
  match (parseDevice LookupDevice ResponseWriter_new r).1 with
  | None =>
      refused (handleAPIGetDeviceState impl LookupDevice Encode_LightState
                 ResponseWriter_new r s) /\
      refused (handleAPIGetDeviceInfo impl LookupDevice Encode_DeviceInfo
                 ResponseWriter_new r s)
  | Some device =>
      read_state (dev_ID device)
        (handleAPIGetDeviceState impl LookupDevice Encode_LightState
           ResponseWriter_new r s) /\
      read_info (dev_ID device)
        (handleAPIGetDeviceInfo impl LookupDevice Encode_DeviceInfo
           ResponseWriter_new r s)
  end.
Proof.
  intros ctx read_state read_info refused.
  subst read_state read_info refused. cbv beta zeta.
  unfold handleGetDeviceState, handleGetDeviceInfo, handleAPIGetDeviceState,
    handleAPIGetDeviceInfo, PowerLineModem_GetDeviceState,
    PowerLineModem_GetDeviceInfo.
  fold ctx. split.
  - pose proof (parseID_new _ _ ParseID r) as Hid.
    destruct (parseID ParseID ResponseWriter_new r) as [[id|] w1];
      cbn [fst]; [subst w1 | by repeat split].
    split.
    + by destruct (GetDeviceState impl ctx id (modem s)) as [[state|err] m].
    + by destruct (GetDeviceInfo impl ctx id (modem s)) as [[info|err] m].
  - pose proof (parseDevice_new _ _ LookupDevice r) as Hdev.
    destruct (parseDevice LookupDevice ResponseWriter_new r)
      as [[device|] w1]; cbn [fst];
      [destruct Hdev as [-> _] | by repeat split].
    split.
    + by destruct (GetDeviceState impl ctx (dev_ID device) (modem s))
        as [[state|err] m].
    + by destruct (GetDeviceInfo impl ctx (dev_ID device) (modem s))
        as [[info|err] m].
Qed.

End insteon_more_facts.

Section insteon_beep_facts.
Import insteon insteon_more.

Variable ID : Type.
Variable Context : Type.
Variable Modem : Type.
Variable ParseID : string -> result ID.
Variable IMInfo : Type.
Variable AllLinkRecordList : Type.
Variable Encode_IMInfo : IMInfo -> string.
Variable Encode_AllLinkRecordList : AllLinkRecordList -> string.
Variable GetIMInfo : Context -> Modem -> result IMInfo * Modem.
Variable GetAllLinkDB : Context -> Modem -> result AllLinkRecordList * Modem.
Variable Beep : Context -> ID -> Modem -> option error * Modem.

(** X16. How a beep is answered. When the identity does not parse the
    answer is 404 and the modem is left alone. Otherwise the modem is asked
    to beep once; an error is answered with status 500 and its text; a
    success is answered with nothing at all: the handler writes no status,
    no content type and no body, so that an empty answer of status 200 is
    sent. *)
Theorem handleBeep_writes_nothing_on_success (r : Request Context) (m : Modem) :
  let out := handleBeep ParseID Beep ResponseWriter_new r m in
  match (parseID ParseID ResponseWriter_new r).1 with
  | None => status out.1 = Some StatusNotFound /\ out.2 = m
  | Some id =>
      out.2 = (Beep (req_Context r) id m).2 /\
      match (Beep (req_Context r) id m).1 with
      | Some err =>
          out.1 = mkResponseWriter (Some StatusInternalServerError) None
                    (Error err)
      | None =>
          out.1 = ResponseWriter_new /\ status_sent out.1 = StatusOK /\
          header_Content_Type out.1 = None /\ body out.1 = ""
      end
  end.
Proof.
  intros out. subst out. unfold handleBeep.
  pose proof (parseID_new _ _ ParseID r) as Hid.
  destruct (parseID ParseID ResponseWriter_new r) as [[id|] w1];
    cbn [fst]; [subst w1 | by split].
  by destruct (Beep (req_Context r) id m) as [[err|] m'].
Qed.

End insteon_beep_facts.

Section insteon_more_witnesses.
Import insteon insteon_more.

Lemma rejected_put_leaves_modem_alone_witness :
  let out :=
    handleSetDeviceState example.impl example.ParseID example.no_params_error
      example.Decode example.Encode ResponseWriter_new
      example_more.request_bad_id example.service in
  let late :=
    handleAPISetDeviceState example.impl example.LookupDevice
      example.no_params_error example.Decode example.Encode ResponseWriter_new
      example_more.request_bad_body example.service in
  (status out.1 = Some StatusNotFound /\ out.2 = example.service) /\
  (status late.1 = Some StatusBadRequest /\ late.2 = example.service).
Proof.
  intros out late.
  destruct (rejected_put_leaves_modem_alone nat nat nat unit (list nat)
              example.impl example.ParseID example.LookupDevice
              example.no_params_error example.Decode example.Encode
              example.Decode example.Encode example_more.request_bad_id
              example.service) as [(_ & H404 & Hkeep) _].
  destruct (rejected_put_leaves_modem_alone nat nat nat unit (list nat)
              example.impl example.ParseID example.LookupDevice
              example.no_params_error example.Decode example.Encode
              example.Decode example.Encode example_more.request_bad_body
              example.service) as (_ & _ & (_ & _ & Hkeep') & _).
  fold out in H404, Hkeep. fold late in Hkeep'.
  split.
  - split; [exact (proj2 H404 eq_refl)|].
    apply Hkeep. left. exact (proj2 H404 eq_refl).
  - split; [reflexivity|]. apply Hkeep'. right. reflexivity.
Defined.

End insteon_more_witnesses.

(** * The media type of a body, and the device of the modem *)

Section decodeValue_more_facts.
Import insteon.

Variable Context : Type.
Variable consumeMediaParams : string -> option error.

Lemma cut_params_append base rest :
  (forall c, In c (list_ascii_of_string base) -> c <> ";"%char) ->
  (rest = "" \/ exists rest', rest = String ";" rest') ->
  mime.cut_params (base +:+ rest) = (base, rest).
Proof.
  intros Hbase Hrest. induction base as [|c base IH].
  - destruct Hrest as [->|[rest' ->]]; [done|]. cbn. done.
  - change (String c base +:+ rest) with (String c (base +:+ rest)).
    cbn [mime.cut_params].
    destruct (Ascii.eqb_spec c ";") as [->|Hc].
    + exfalso. apply (Hbase ";"%char); [by left | done].
    + rewrite IH; [done|]. intros c' Hin. apply Hbase. by right.
Qed.

(** X17. The check of the media type of a body looks at the part of
    [Content-Type] before the first semicolon only, without regard to case
    or to blanks around it. Given a body, and the parameters after the
    semicolon being well formed: when that part reads [application/json],
    the body goes to the decoder, whose error is answered with status 400;
    when [mime.ParseMediaType] accepts the header with another media type,
    the answer is 400 and the decoder has no say in it. *)
Theorem decodeValue_checks_media_type_only (V : Type)
    (Decode : string -> result V) (r : Request Context) (data : string) :
  Body r = Some data ->
  (forall base rest,
      Content_Type r = base +:+ rest ->
      (forall c, In c (list_ascii_of_string base) -> c <> ";"%char) ->
      (rest = "" \/
       (exists rest', rest = String ";" rest') /\
       consumeMediaParams rest = None) ->
      mime.TrimSpace (mime.ToLower base) = "application/json" ->
      decodeValue consumeMediaParams Decode ResponseWriter_new r
      = match Decode data with
        | Ok value => (Some value, ResponseWriter_new)
        | Err err =>
            (None, mkResponseWriter (Some StatusBadRequest) None (Error err))
        end) /\
  (forall mediatype,
      mime.ParseMediaType consumeMediaParams (Content_Type r)
        = (mediatype, None) ->
      mediatype <> "application/json" ->
      decodeValue consumeMediaParams Decode ResponseWriter_new r
      = (None,
         mkResponseWriter (Some StatusBadRequest) None
           "expected body of type application/json")).
Proof.
  intros Hbody. split.
  - intros base rest Hct Hbase Hrest Hjson.
    unfold decodeValue. rewrite Hbody. unfold mime.ParseMediaType.
    rewrite Hct, cut_params_append, Hjson; [|done|tauto].
    cbn [mime.checkMediaTypeDisposition].
    assert (Hparse :
              (if decide (rest = "") then ("application/json", None)
               else match consumeMediaParams rest with
                    | Some err => ("application/json", Some err)
                    | None => ("application/json", None)
                    end) = ("application/json", @None error)).
    { destruct (decide (rest = "")); [done|].
      destruct Hrest as [?|[_ ->]]; done. }
    change (mime.checkMediaTypeDisposition "application/json") with (@None error).
    cbv iota. rewrite Hparse.
    by destruct (Decode data).
  - intros mediatype Hp Hne. unfold decodeValue. rewrite Hbody, Hp.
    pose proof (ParseMediaType_no_error _ _ _ Hp) as Hempty.
    rewrite (bool_decide_eq_false_2 _ Hempty), (bool_decide_eq_false_2 _ Hne).
    done.
Qed.

End decodeValue_more_facts.

Section decodeValue_more_witnesses.
Import insteon.

Lemma decodeValue_checks_media_type_only_witness :
  decodeValue example.no_params_error example.Decode ResponseWriter_new
    (mkRequest (Some "255") " Application/JSON ; charset=utf-8"
       (fun _ => "") tt)
  = (Some 255%nat, ResponseWriter_new) /\
  decodeValue example.no_params_error example.Decode ResponseWriter_new
    (mkRequest (Some "255") "text/plain" (fun _ => "") tt)
  = (None,
     mkResponseWriter (Some StatusBadRequest) None
       "expected body of type application/json").
Proof.
  split.
  - destruct (decodeValue_checks_media_type_only unit example.no_params_error
                nat example.Decode
                (mkRequest (Some "255") " Application/JSON ; charset=utf-8"
                   (fun _ => "") tt) "255" eq_refl) as [H _].
    assert (Hbase : forall c,
               In c (list_ascii_of_string " Application/JSON ") ->
               c <> ";"%char).
    { intros c Hin. vm_compute in Hin.
      repeat (destruct Hin as [<-|Hin]; [discriminate|]). destruct Hin. }
    rewrite (H " Application/JSON " "; charset=utf-8" eq_refl Hbase
               (or_intror (conj (ex_intro _ " charset=utf-8" eq_refl) eq_refl))
               eq_refl).
    reflexivity.
  - destruct (decodeValue_checks_media_type_only unit example.no_params_error
                nat example.Decode
                (mkRequest (Some "255") "text/plain" (fun _ => "") tt)
                "255" eq_refl) as [_ H].
    apply (H "text/plain"); [reflexivity | discriminate].
Defined.

End decodeValue_more_witnesses.

Section plm_device_facts.
Import plm_device.

Variable Device : Type.
Variable url_Parse : string -> option URL.
Variable Dial : string -> string -> result Device.
Variable Open : OpenOptions -> result Device.

(** X18. [ParseDevice] makes at most one attempt to open a device. With
    the scheme [tcp] it dials the host of the URL and nothing else, and it
    wraps the error of the dial; with no scheme it opens the serial port
    named by the URL at 19200 baud, 8 data bits, 1 stop bit and a minimum
    read of 1, and returns the error of the port as it is; with any other
    scheme it opens nothing and returns an error. A device string that
    [url.Parse] refuses is not reported as an error: the call panics on the
    nil URL, having opened nothing. *)
Theorem ParseDevice_opens_one_device_or_none (device : string) :
  match url_Parse device with
  | None => ParseDevice url_Parse Dial Open device = (NilPointerPanic, [])
  | Some url =>
      exists r attempts,
        ParseDevice url_Parse Dial Open device = (Returned r, attempts) /\
        (Scheme url = "tcp" ->
         attempts = [net_Dial "tcp" (Host url)] /\
         match Dial "tcp" (Host url) with
         | Ok dev => r = Ok dev
         | Err err =>
             r = Err (errors_New
                        ("failed to connect to TCP device: " +:+ Error err))
         end) /\
        (Scheme url = "" ->
         attempts = [serial_Open (mkOpenOptions (URL_String url) 19200 8 1 1)] /\
         r = Open (mkOpenOptions (URL_String url) 19200 8 1 1)) /\
        (Scheme url <> "tcp" -> Scheme url <> "" ->
         attempts = [] /\ exists err, r = Err err)
  end.
Proof.
  unfold ParseDevice. destruct (url_Parse device) as [url|]; [|done].
  destruct (decide (Scheme url = "tcp")) as [Htcp|Htcp].
  - destruct (Dial "tcp" (Host url)) as [dev|err]; eexists _, _;
      (split; [reflexivity|]); (split; [done|]);
      (split; [intros H; rewrite H in Htcp; discriminate Htcp | done]).
  - destruct (decide (Scheme url = "")) as [Hnone|Hnone].
    + destruct (Open _) as [dev|err]; eexists _, _;
        (split; [reflexivity|]); (split; [done|]);
        (split; [intros _; by split | done]).
    + eexists _, _. split; [reflexivity|]. split; [done|]. split; [done|].
      intros _ _. split; [done|]. by eexists.
Qed.

End plm_device_facts.

Section plm_device_witnesses.
Import plm_device.

Lemma ParseDevice_opens_one_device_or_none_witness :
  let parse device :=
    if decide (device = "/dev/ttyUSB0") then Some (mkURL "" "" "/dev/ttyUSB0")
    else if decide (device = "udp://10.0.0.1:9761")
         then Some (mkURL "udp" "10.0.0.1:9761" "udp://10.0.0.1:9761")
         else None in
  ParseDevice parse (fun _ _ => Ok 1%nat) (fun _ => Ok 2%nat)
    "udp://10.0.0.1:9761"
  = (Returned (Err (errors_New "unsupported scheme for device `udp`")), []) /\
  (ParseDevice parse (fun _ _ => Ok 1%nat) (fun _ => Ok 2%nat)
     "/dev/ttyUSB0").2
  = [serial_Open (mkOpenOptions "/dev/ttyUSB0" 19200 8 1 1)].
Proof.
  intros parse.
  pose proof (ParseDevice_opens_one_device_or_none nat parse
                (fun _ _ => Ok 1%nat) (fun _ => Ok 2%nat)
                "udp://10.0.0.1:9761") as Hudp.
  pose proof (ParseDevice_opens_one_device_or_none nat parse
                (fun _ _ => Ok 1%nat) (fun _ => Ok 2%nat)
                "/dev/ttyUSB0") as Htty.
  cbn in Hudp, Htty.
  destruct Hudp as (r & attempts & Hrun & _ & _ & Hnone).
  destruct Htty as (r' & attempts' & Hrun' & _ & Hserial & _).
  split.
  - reflexivity.
  - rewrite Hrun'. cbn [snd]. by destruct (Hserial eq_refl) as [-> _].
Defined.

End plm_device_witnesses.
